(** * QuickAPI templates core: a shallow embedding of [quickapi/templates/core.py]

    The development follows the source file top to bottom: Python values and
    insertion-ordered dictionaries, the [Element] virtual-DOM node with
    [to_dict] and [to_html], the [HTMLElement] builder, the process-wide
    event-handler registry, and the [QuickTemplate] RPC handlers. *)

From Stdlib Require Import String Ascii ZArith List Bool Lia.
From stdpp Require Import base option list gmap strings pretty.

Set Warnings "-register-all".

Local Open Scope string_scope.
Local Open Scope list_scope.

(** ** Insertion-ordered dictionaries

    A Python [dict] keeps its keys in insertion order; [to_html] walks
    [props.items()], [_handle_dispatch_action] walks [reducers.values()] and
    [_handle_execute_handler] takes [list(states.keys())[0]], so the order is
    part of the behaviour.  A dictionary is an association list; assigning to
    a key that is present keeps its position, a new key goes to the end. *)
Module PyDict.
Section Dict.
Context {V : Type}.

(** [d.get(k)] *)
Fixpoint get (k : string) (d : list (string * V)) : option V :=
  match d with
  | [] => None
  | (k', v) :: d' => if decide (k' = k) then Some v else get k d'
  end.

(** [k in d] *)
Definition contains (k : string) (d : list (string * V)) : bool :=
  match get k d with Some _ => true | None => false end.

(** [d[k] = v] *)
Fixpoint set (k : string) (v : V) (d : list (string * V)) : list (string * V) :=
  match d with
  | [] => [(k, v)]
  | (k', v') :: d' =>
      if decide (k' = k) then (k', v) :: d' else (k', v') :: set k v d'
  end.

(** [d.update(other)] *)
Definition update (d other : list (string * V)) : list (string * V) :=
  fold_left (fun acc kv => set (fst kv) (snd kv) acc) other d.

(** [list(d.keys())] and [d.values()] *)
Definition keys (d : list (string * V)) : list string := map fst d.
Definition values (d : list (string * V)) : list V := map snd d.

(** A dictionary has each key once. *)
Definition wf (d : list (string * V)) : Prop := NoDup (keys d).
End Dict.
End PyDict.

(** ** Python values *)

(** Plain data: what the state map holds and what an RPC payload carries. *)
Inductive value : Type :=
  | VNone
  | VBool (b : bool)
  | VInt (n : Z)
  | VStr (s : string)
  | VList (l : list value)
  | VDict (d : list (string * value)).

(** [hook_context.states]: state key to current value. *)
Abbreviation States := (list (string * value)).

(** The hook-context state maps of the mounted components, by component id:
    what a handler closure reaches through the setters it captured. *)
Abbreviation Heap := (gmap string (list (string * value))).

(** An exception is known by [str(e)]. *)
Inductive result (A : Type) : Type :=
  | Ok (a : A)
  | Raise (msg : string).
Arguments Ok {A} a.
Arguments Raise {A} msg.

(** [class MockEvent] of [_handle_execute_handler]. *)
Record MockEvent : Type := mkMockEvent {
  target : value;
  preventDefault : unit -> value
}.

(** What a call of a handler gives back: it raised, it returned a value that
    is not callable, or it returned a function (as [increment] does). *)
Inductive HandlerResult : Type :=
  | HRaise (msg : string)
  | HReturn (v : value)
  | HReturnCallable (f : value -> result value).

(** A function object bound to an event attribute.  The call may write the
    state maps it captured, also when it ends by raising. *)
Record Callable : Type := mkCallable {
  fn_call : MockEvent -> Heap -> Heap * HandlerResult
}.

(** [Dict[str, Any]] and [List[Any]]: props and children hold any object. *)
Inductive pyobj : Type :=
  | PNone
  | PBool (b : bool)
  | PInt (n : Z)
  | PStr (s : string)
  | PDict (d : list (string * pyobj))
  | PList (l : list pyobj)
  | PCallable (f : Callable)
  | PRawHTML (content : string)
  | PElement (e : Element)
with Element : Type :=
  | mkElement (tag : string) (props : list (string * pyobj))
      (children : list pyobj) (key : option string)
      (component_id : option string).

Definition tag (e : Element) : string :=
  match e with mkElement t _ _ _ _ => t end.
Definition props (e : Element) : list (string * pyobj) :=
  match e with mkElement _ p _ _ _ => p end.
Definition children (e : Element) : list pyobj :=
  match e with mkElement _ _ c _ _ => c end.
Definition key (e : Element) : option string :=
  match e with mkElement _ _ _ k _ => k end.
Definition component_id (e : Element) : option string :=
  match e with mkElement _ _ _ _ c => c end.

Definition of_optional (o : option string) : pyobj :=
  match o with Some s => PStr s | None => PNone end.

(** ** String helpers *)

(** [s.replace(a, b)] for one-character [a] and [b]. *)
Fixpoint replace (a b : ascii) (s : string) : string :=
  match s with
  | EmptyString => EmptyString
  | String c s' => String (if Ascii.eqb c a then b else c) (replace a b s')
  end.

(** [key.startswith(p)] *)
Definition startswith (p s : string) : bool := String.prefix p s.

(** [sep.join(l)] *)
Definition join (sep : string) (l : list string) : string := String.concat sep l.

(** The double-quote character of the emitted attributes. *)
Definition dq : string := String (ascii_of_nat 34) EmptyString.

(** ** The process-wide handler registry

    [_event_handlers] and [_handler_counter], the two module globals. *)
Record Globals : Type := mkGlobals {
  _event_handlers : gmap string Callable;
  _handler_counter : nat
}.

(** The globals when the module is imported. *)
Definition initial_globals : Globals := mkGlobals ∅ 0.

(** [f"handler_{n}"] *)
Definition handler_name (n : nat) : string := "handler_" +:+ pretty n.

(** [register_event_handler(handler)]: the id, and the globals after it. *)
Definition register_event_handler (handler : Callable) (g : Globals)
  : string * Globals :=
  let handler_id := handler_name (_handler_counter g) in
  (handler_id,
   mkGlobals (<[handler_id := handler]> (_event_handlers g))
             (S (_handler_counter g))).

Section Core.

(** [repr] of the objects whose printed form Python builds itself (a dict,
    a list, a function object, a dataclass instance). *)
Variable py_repr : pyobj -> string.

(** [str(x)], also what [f"{x}"] prints. *)
Definition py_str (o : pyobj) : string :=
  match o with
  | PNone => "None"
  | PBool true => "True"
  | PBool false => "False"
  | PInt n => pretty n
  | PStr s => s
  | PRawHTML content => content
  | _ => py_repr o
  end.

(** ** [Element.to_dict] *)
Fixpoint to_dict (e : Element) : pyobj :=
  match e with
  | mkElement tag props children key component_id =>
      PDict [("tag", PStr tag);
             ("props", PDict props);
             ("children", PList (map child_to_dict children));
             ("key", of_optional key);
             ("componentId", of_optional component_id)]
  end
with child_to_dict (child : pyobj) : pyobj :=
  match child with
  | PElement e => to_dict e
  | _ => PStr (py_str child)
  end.

(** ** [Element.to_html] *)

(** The [style] mapping: [k.replace('_', '-'): v], joined by [; ]. *)
Definition style_str (d : list (string * pyobj)) : string :=
  join "; " (map (fun kv => replace "_" "-" (fst kv) +:+ ": " +:+ py_str (snd kv)) d).

(** One turn of the loop over [self.props.items()]: the attribute appended
    to [attrs], and the globals after a registration. *)
Definition render_attr (key : string) (value : pyobj) (g : Globals)
  : string * Globals :=
  if startswith "on_" key then
    match value with
    | PCallable f =>
        let '(handler_id, g') := register_event_handler f g in
        ("data-handler=" +:+ dq +:+ handler_id +:+ dq, g')
    | _ => ("data-action=" +:+ dq +:+ py_str value +:+ dq, g)
    end
  else if decide (key = "class_") then
    ("class=" +:+ dq +:+ py_str value +:+ dq, g)
  else
    match decide (key = "style"), value with
    | left _, PDict d => ("style=" +:+ dq +:+ style_str d +:+ dq, g)
    | _, _ =>
        if decide (key = "data_bind") then
          ("data-bind=" +:+ dq +:+ py_str value +:+ dq, g)
        else
          (replace "_" "-" key +:+ "=" +:+ dq +:+ py_str value +:+ dq, g)
    end.

Fixpoint render_attrs (ps : list (string * pyobj)) (g : Globals)
  : list string * Globals :=
  match ps with
  | [] => ([], g)
  | (key, value) :: ps' =>
      let '(a, g1) := render_attr key value g in
      let '(attrs, g2) := render_attrs ps' g1 in
      (a :: attrs, g2)
  end.

(** [' ' + ' '.join(attrs) if attrs else ''] *)
Definition attrs_str (attrs : list string) : string :=
  match attrs with
  | [] => ""
  | _ => " " +:+ join " " attrs
  end.

Definition self_closing_tags : list string :=
  ["br"; "hr"; "img"; "input"; "meta"; "link"].

Definition is_self_closing (tag : string) : bool :=
  bool_decide (tag ∈ self_closing_tags).

(** The children are rendered left to right, each on the globals the
    previous one left. *)
Fixpoint to_html (e : Element) (g : Globals) {struct e} : string * Globals :=
  match e with
  | mkElement tag props children _ _ =>
      let '(attrs, g1) := render_attrs props g in
      if is_self_closing tag then
        ("<" +:+ tag +:+ attrs_str attrs +:+ " />", g1)
      else
        let '(parts, g2) :=
          (fix children_html (cs : list pyobj) (g : Globals)
             : list string * Globals :=
             match cs with
             | [] => ([], g)
             | child :: cs' =>
                 let '(h, g') := child_to_html child g in
                 let '(hs, g'') := children_html cs' g' in
                 (h :: hs, g'')
             end) children g1 in
        ("<" +:+ tag +:+ attrs_str attrs +:+ ">" +:+ join "" parts
           +:+ "</" +:+ tag +:+ ">", g2)
  end
with child_to_html (child : pyobj) (g : Globals) {struct child}
  : string * Globals :=
  match child with
  | PElement e => to_html e g
  | PRawHTML content => (content, g)
  | _ => (py_str child, g)
  end.

(** The same loop, named, for statements about the children segment. *)
Fixpoint children_html (cs : list pyobj) (g : Globals)
  : list string * Globals :=
  match cs with
  | [] => ([], g)
  | child :: cs' =>
      let '(h, g') := child_to_html child g in
      let '(hs, g'') := children_html cs' g' in
      (h :: hs, g'')
  end.

(** ** [HTMLElement] and [HTMLBuilder] *)

Record HTMLElement : Type := mkHTMLElement { he_tag : string }.

(** One turn of [for i, arg in enumerate(args)]. *)
Definition call_step (i : nat) (arg : pyobj)
    (props : list (string * pyobj)) (children : list pyobj)
  : list (string * pyobj) * list pyobj :=
  match i, arg with
  | O, PDict d => (d, children)
  | _, PElement _ => (props, children ++ [arg])
  | _, PList l => (props, children ++ l)
  | _, PNone => (props, children)
  | _, _ => (props, children ++ [PStr (py_str arg)])
  end.

Fixpoint call_loop (i : nat) (args : list pyobj)
    (props : list (string * pyobj)) (children : list pyobj)
  : list (string * pyobj) * list pyobj :=
  match args with
  | [] => (props, children)
  | arg :: rest =>
      let '(props', children') := call_step i arg props children in
      call_loop (S i) rest props' children'
  end.

(** [HTMLElement.__call__(self, *args, **kwargs)] *)
Definition HTMLElement_call (self : HTMLElement) (args : list pyobj)
    (kwargs : list (string * pyobj)) : Element :=
  let '(props, children) := call_loop 0 args [] [] in
  mkElement (he_tag self) (PyDict.update props kwargs) children None None.

(** [HTMLBuilder.__getattr__] and [HTMLBuilder.create_element] *)
Definition HTMLBuilder_getattr (tag : string) : HTMLElement := mkHTMLElement tag.

Definition create_element (tag : string)
    (props : option (list (string * pyobj))) (children : option (list pyobj))
  : Element :=
  mkElement tag (default [] props) (default [] children) None None.

(** ** Hook context and components *)

(** One entry of [hook_context.reducers]. *)
Record ReducerInfo : Type := mkReducerInfo {
  reducer : value -> value -> result value;
  state_key : string
}.

(** Modelled from the spec: the [HookContext] class of [hooks.py] (imported
    by [core.py], not among the sources).  It holds a mapping from state key
    to current value and a mapping from reducer key to the reducer function
    and its associated state key. *)
Record HookContext : Type := mkHookContext {
  states : list (string * value);
  reducers : list (string * ReducerInfo)
}.

(** [class Component]: the id, the hook context, and the [render] method of
    the subclass.  A render pass runs user code against the hook context: it
    leaves a hook context behind and returns an element or raises (the base
    class raises [NotImplementedError]). *)
Record Component : Type := mkComponent {
  id : string;
  hook_context : HookContext;
  render : HookContext -> HookContext * result Element
}.

Definition with_hook_context (c : Component) (hc : HookContext) : Component :=
  mkComponent (id c) hc (render c).

Definition with_states (c : Component) (s : list (string * value)) : Component :=
  with_hook_context c (mkHookContext s (reducers (hook_context c))).

(** ** The template engine *)

(** What the engine does besides returning: calls into user code, update
    requests, render passes and broadcasts, in the order they happen. *)
Inductive Effect : Type :=
  | CallHandler (handler_id : string) (event : MockEvent)
  | CallResult (state_key : string) (current_value : value)
  | CallReducer (reducer_key : string) (current_state action : value)
  | UpdateComponent (component_id : string)
  | Render (component_id : string)
  | Broadcast (component_id : string) (element : pyobj).

(** [class QuickTemplate], with the module globals it reads and the log of
    effects.  [_websocket_manager] is an attribute that [run] sets when a
    client connects; [hasattr] tests it. *)
Record World : Type := mkWorld {
  components : gmap string Component;
  root_component : option string;
  _websocket_manager : bool;
  globals : Globals;
  trace : list Effect
}.

Definition set_components (cs : gmap string Component) (w : World) : World :=
  mkWorld cs (root_component w) (_websocket_manager w) (globals w) (trace w).

Definition set_root (r : option string) (w : World) : World :=
  mkWorld (components w) r (_websocket_manager w) (globals w) (trace w).

Definition emit (ev : Effect) (w : World) : World :=
  mkWorld (components w) (root_component w) (_websocket_manager w) (globals w)
          (trace w ++ [ev]).

(** A call either returns or lets an exception out; the world it leaves is
    there in both cases. *)
Inductive outcome (A : Type) : Type :=
  | Return (a : A)
  | Raised (msg : string).
Arguments Return {A} a.
Arguments Raised {A} msg.

Definition M (A : Type) : Type := World -> outcome A * World.

Definition ret {A} (a : A) : M A := fun w => (Return a, w).

Definition bind {A B} (m : M A) (k : A -> M B) : M B :=
  fun w =>
    match m w with
    | (Return a, w') => k a w'
    | (Raised msg, w') => (Raised msg, w')
    end.

Definition raise {A} (msg : string) : M A := fun w => (Raised msg, w).

(** [try: m except Exception as e: h(str(e))] *)
Definition try_except {A} (m : M A) (h : string -> M A) : M A :=
  fun w =>
    match m w with
    | (Return a, w') => (Return a, w')
    | (Raised msg, w') => h msg w'
    end.

Definition get_world : M World := fun w => (Return w, w).
Definition modify (f : World -> World) : M unit := fun w => (Return tt, f w).

Notation "x <- m ;; k" := (bind m (fun x => k))
  (at level 100, m at next level, right associativity).
Notation "m ;; k" := (bind m (fun _ => k))
  (at level 100, right associativity).

(** A [for] loop whose body may [return]: the first [Some] ends it. *)
Fixpoint for_each {X R} (body : X -> M (option R)) (l : list X) : M (option R) :=
  match l with
  | [] => ret None
  | x :: l' =>
      r <- body x;;
      match r with
      | Some v => ret (Some v)
      | None => for_each body l'
      end
  end.

(** The values of the dictionaries the RPC handlers return. *)
Inductive rval : Type :=
  | RBool (b : bool)
  | RStr (s : string)
  | RStates (s : list (string * value)).

Abbreviation Response := (list (string * rval)).

(** The parameters of an RPC call, [data.get(...)] of each: whatever JSON
    value the client sent under the key, [None] when the key is absent. *)
Record RpcData : Type := mkRpcData {
  componentId : value;
  stateKey : value;
  value_ : value;
  action : value;
  handlerId : value
}.

(** What [key in d] does with the key before it looks it up in a dictionary
    with string keys: a list and a dict cannot be hashed, the test raises
    [TypeError]; a string is the key to look up; [None], a boolean and a
    number hash and are equal to no string. *)
Definition hashed (key : value) : result (option string) :=
  match key with
  | VStr s => Ok (Some s)
  | VList _ => Raise "unhashable type: 'list'"
  | VDict _ => Raise "unhashable type: 'dict'"
  | _ => Ok None
  end.

(** A step that returns or raises, in the world as it is. *)
Definition lift {A} (r : result A) : M A :=
  fun w =>
    match r with
    | Ok a => (Return a, w)
    | Raise msg => (Raised msg, w)
    end.

(** [Component.mount] keeps the id in the hook context; the id is the
    registry key here. *)
Definition register_component (c : Component) : M string :=
  modify (fun w => set_components (<[id c := c]> (components w)) w);;
  ret (id c).

Definition set_root_component (c : Component) : M unit :=
  modify (set_root (Some (id c)));;
  _ <- register_component c;;
  ret tt.

(** [component.hook_context.states = s] through the reference held by the
    registry. *)
Definition store_states (component_id : string) (s : list (string * value))
  : M unit :=
  modify (fun w =>
    set_components (alter (fun c => with_states c s) component_id (components w)) w).

(** [QuickTemplate.update_component] *)
Definition update_component (component_id : string) : M unit :=
  modify (emit (UpdateComponent component_id));;
  w <- get_world;;
  match components w !! component_id with
  | Some component =>
      modify (emit (Render component_id));;
      let '(hc, r) := render component (hook_context component) in
      modify (fun w =>
        set_components (<[component_id := with_hook_context component hc]>
                          (components w)) w);;
      match r with
      | Raise msg => raise msg
      | Ok new_element =>
          if _websocket_manager w then
            modify (emit (Broadcast component_id (to_dict new_element)))
          else ret tt
      end
  | None => ret tt
  end.

(** [component_id in self.components], giving the id as a string and the
    component; the test raises for an id that cannot be hashed. *)
Definition find_component (component_id : value) (w : World)
  : result (option (string * Component)) :=
  match hashed component_id with
  | Raise msg => Raise msg
  | Ok None => Ok None
  | Ok (Some cid) =>
      match components w !! cid with
      | Some component => Ok (Some (cid, component))
      | None => Ok None
      end
  end.

(** [QuickTemplate._handle_update_state] *)
Definition _handle_update_state (data : RpcData) : M Response :=
  w <- get_world;;
  found <- lift (find_component (componentId data) w);;
  match found with
  | Some (component_id, component) =>
      key <- lift (hashed (stateKey data));;
      match key with
      | Some state_key =>
          if PyDict.contains state_key (states (hook_context component)) then
            store_states component_id
              (PyDict.set state_key (value_ data)
                 (states (hook_context component)));;
            update_component component_id;;
            ret [("success", RBool true)]
          else
            ret [("success", RBool false);
                 ("error", RStr "Component or state not found")]
      | None =>
          ret [("success", RBool false);
               ("error", RStr "Component or state not found")]
      end
  | None =>
      ret [("success", RBool false); ("error", RStr "Component or state not found")]
  end.

(** The body of the loop over [reducers.values()]; every path returns. *)
Definition dispatch_body (component_id : string) (action : value)
    (entry : string * ReducerInfo) : M (option Response) :=
  let reducer_info := snd entry in
  w <- get_world;;
  let current_states :=
    match components w !! component_id with
    | Some c => states (hook_context c)
    | None => []
    end in
  let current_state := default VNone (PyDict.get (state_key reducer_info) current_states) in
  try_except
    (modify (emit (CallReducer (fst entry) current_state action));;
     match reducer reducer_info current_state action with
     | Raise msg => raise msg
     | Ok new_state =>
         store_states component_id
           (PyDict.set (state_key reducer_info) new_state current_states);;
         update_component component_id;;
         ret (Some [("success", RBool true)])
     end)
    (fun msg => ret (Some [("success", RBool false); ("error", RStr msg)])).

(** [QuickTemplate._handle_dispatch_action] *)
Definition _handle_dispatch_action (data : RpcData) : M Response :=
  w <- get_world;;
  found <- lift (find_component (componentId data) w);;
  match found with
  | Some (component_id, component) =>
      r <- for_each (dispatch_body component_id (action data))
                       (reducers (hook_context component));;
      match r with
      | Some response => ret response
      | None =>
          ret [("success", RBool false); ("error", RStr "Component or reducer not found")]
      end
  | None =>
      ret [("success", RBool false); ("error", RStr "Component or reducer not found")]
  end.

(** [QuickTemplate._handle_get_initial_state] *)
Definition _handle_get_initial_state (data : RpcData) : M Response :=
  w <- get_world;;
  found <- lift (find_component (componentId data) w);;
  match found with
  | Some (_, component) =>
      ret [("success", RBool true); ("state", RStates (states (hook_context component)))]
  | None =>
      ret [("success", RBool false); ("error", RStr "Component not found")]
  end.

(** [MockEvent()]: [target] is [None], [preventDefault] is [lambda: None]. *)
Definition MockEvent_new : MockEvent := mkMockEvent VNone (fun _ => VNone).

(** The state maps a handler reaches, and their write-back into the
    components that hold them. *)
Definition heap_of (cs : gmap string Component) : Heap :=
  (fun c => states (hook_context c)) <$> cs.

Definition with_heap (h : Heap) (cs : gmap string Component)
  : gmap string Component :=
  map_imap (fun cid c =>
    Some (match h !! cid with Some s => with_states c s | None => c end)) cs.

(** [result = handler(MockEvent())] *)
Definition call_handler (handler_id : string) (handler : Callable)
  : M HandlerResult :=
  fun w =>
    let event := MockEvent_new in
    let w1 := emit (CallHandler handler_id event) w in
    let '(h, r) := fn_call handler event (heap_of (components w1)) in
    let w2 := set_components (with_heap h (components w1)) w1 in
    match r with
    | HRaise msg => (Raised msg, w2)
    | _ => (Return r, w2)
    end.

(** The body of [_handle_execute_handler] once both ids are found. *)
Definition run_handler (handler_id : string) (handler : Callable)
    (component_id : string) : M Response :=
  try_except
    (result <- call_handler handler_id handler;;
     match result with
     | HReturnCallable f =>
         w' <- get_world;;
         match components w' !! component_id with
         | Some component =>
             match states (hook_context component) with
             | (first_state_key, current_value) :: _ =>
                 modify (emit (CallResult first_state_key current_value));;
                 match f current_value with
                 | Raise msg => raise msg
                 | Ok new_value =>
                     store_states component_id
                       (PyDict.set first_state_key new_value
                          (states (hook_context component)));;
                     update_component component_id
                 end
             | [] => ret tt
             end
         | None => ret tt
         end
     | _ => ret tt
     end;;
     ret [("success", RBool true)])
    (fun msg => ret [("success", RBool false); ("error", RStr msg)]).

(** [QuickTemplate._handle_execute_handler].  The test
    [handler_id in _event_handlers and component_id in self.components]
    stops at the handler id when it is not registered. *)
Definition _handle_execute_handler (data : RpcData) : M Response :=
  w <- get_world;;
  handler_key <- lift (hashed (handlerId data));;
  match handler_key with
  | Some handler_id =>
      match _event_handlers (globals w) !! handler_id with
      | Some handler =>
          found <- lift (find_component (componentId data) w);;
          match found with
          | Some (component_id, _) => run_handler handler_id handler component_id
          | None =>
              ret [("success", RBool false);
                   ("error", RStr "Handler or component not found")]
          end
      | None =>
          ret [("success", RBool false);
               ("error", RStr "Handler or component not found")]
      end
  | None =>
      ret [("success", RBool false); ("error", RStr "Handler or component not found")]
  end.

End Core.

Arguments Return {A} a.
Arguments Raised {A} msg.

(** Successive calls of [register_event_handler], one per handler: the ids
    returned, in call order, and the globals after the last call. *)
Fixpoint register_all (hs : list Callable) (g : Globals) : list string * Globals :=
  match hs with
  | [] => ([], g)
  | h :: hs' =>
      let '(hid, g1) := register_event_handler h g in
      let '(ids, g2) := register_all hs' g1 in
      (hid :: ids, g2)
  end.

(** Every id in the registry was made from a counter value already passed. *)
Definition registry_inv (g : Globals) : Prop :=
  forall hid, is_Some (_event_handlers g !! hid) ->
    exists n, n < _handler_counter g /\ hid = handler_name n.

(** The effects that are calls of a reducer. *)
Definition is_reducer_call (ev : Effect) : bool :=
  match ev with CallReducer _ _ _ => true | _ => false end.

(** The effects of an update: the request, the render pass, the broadcast. *)
Definition is_update_effect (ev : Effect) : bool :=
  match ev with
  | UpdateComponent _ | Render _ | Broadcast _ _ => true
  | _ => false
  end.

(** The effects that are calls of a registered handler. *)
Definition is_handler_call (ev : Effect) : bool :=
  match ev with CallHandler _ _ => true | _ => false end.

(** The state map of a component once a handler has run on the heap. *)
Definition states_after (heap : Heap) (cid : string) (c : Component)
  : list (string * value) :=
  default (states (hook_context c)) (heap !! cid).

(** ** Re-hydration and the statements of the builder contract *)

Section Rehydration.

Variable py_repr : pyobj -> string.

(** The [key] and [componentId] fields: a string or [None]. *)
Definition to_optional (o : pyobj) : option (option string) :=
  match o with
  | PNone => Some None
  | PStr s => Some (Some s)
  | _ => None
  end.

(** Modelled from the spec: re-hydration of the dictionary [to_dict] makes
    (the client side that reads it is not among the sources).  It reads the
    fields [tag], [props], [children], [key] and [componentId], rebuilds a
    dictionary child as an element, recursively, and keeps a string child
    as text. *)
Fixpoint from_dict (d : pyobj) : option Element :=
  match d with
  | PDict [(k1, PStr tag); (k2, PDict props); (k3, PList cs); (k4, key);
           (k5, component_id)] =>
      if bool_decide ([k1; k2; k3; k4; k5]
                      = ["tag"; "props"; "children"; "key"; "componentId"])
      then
        match
          (fix children_from (cs : list pyobj) : option (list pyobj) :=
             match cs with
             | [] => Some []
             | PStr s :: cs' =>
                 match children_from cs' with
                 | Some l => Some (PStr s :: l)
                 | None => None
                 end
             | o :: cs' =>
                 match from_dict o, children_from cs' with
                 | Some e, Some l => Some (PElement e :: l)
                 | _, _ => None
                 end
             end) cs,
          to_optional key, to_optional component_id
        with
        | Some children, Some key', Some component_id' =>
            Some (mkElement tag props children key' component_id')
        | _, _, _ => None
        end
      else None
  | _ => None
  end.

(** The loop of [from_dict] over the children, by name. *)
Fixpoint children_from (cs : list pyobj) : option (list pyobj) :=
  match cs with
  | [] => Some []
  | PStr s :: cs' =>
      match children_from cs' with
      | Some l => Some (PStr s :: l)
      | None => None
      end
  | o :: cs' =>
      match from_dict o, children_from cs' with
      | Some e, Some l => Some (PElement e :: l)
      | _, _ => None
      end
  end.

(** The tree with every child that is not an element replaced by its
    [str]: what serialization keeps of a tree. *)
Fixpoint stringify (e : Element) : Element :=
  match e with
  | mkElement tag props children key component_id =>
      mkElement tag props (map stringify_child children) key component_id
  end
with stringify_child (child : pyobj) : pyobj :=
  match child with
  | PElement e => PElement (stringify e)
  | _ => PStr (py_str py_repr child)
  end.

(** The serializable trees: every child is an element of that kind or a
    string. *)
Fixpoint serializable (e : Element) : bool :=
  match e with
  | mkElement _ _ children _ _ => forallb serializable_child children
  end
with serializable_child (child : pyobj) : bool :=
  match child with
  | PElement e => serializable e
  | PStr _ => true
  | _ => false
  end.

(** The positional attributes mapping of a builder call: the first argument
    when it is a mapping. *)
Definition positional_props (args : list pyobj) : list (string * pyobj) :=
  match args with
  | PDict d :: _ => d
  | _ => []
  end.

(** The positional arguments that are children: all but a first mapping. *)
Definition child_args (args : list pyobj) : list pyobj :=
  match args with
  | PDict _ :: rest => rest
  | _ => args
  end.

(** What one child argument adds to the children, as the code has it: an
    element as it is, the items of a list, nothing for [None], the [str] of
    anything else. *)
Definition child_items (arg : pyobj) : list pyobj :=
  match arg with
  | PElement _ => [arg]
  | PList l => l
  | PNone => []
  | _ => [PStr (py_str py_repr arg)]
  end.

(** The same by the words of the contract: an element as it is, the items
    of a sequence, the [str] of anything else. *)
Definition claimed_child_items (arg : pyobj) : list pyobj :=
  match arg with
  | PElement _ => [arg]
  | PList l => l
  | _ => [PStr (py_str py_repr arg)]
  end.

End Rehydration.

(** Induction on an element with the property at hand for the elements
    among its children. *)
Section ElementInduction.

Variable P : Element -> Prop.

Definition child_holds (child : pyobj) : Prop :=
  match child with PElement e => P e | _ => True end.

Hypothesis step : forall tag props children key component_id,
  Forall child_holds children ->
  P (mkElement tag props children key component_id).

Fixpoint Element_children_ind (e : Element) : P e :=
  match e with
  | mkElement tag props children key component_id =>
      step tag props children key component_id
        ((fix all (cs : list pyobj) : Forall child_holds cs :=
            match cs with
            | [] => @List.Forall_nil pyobj child_holds
            | child :: cs' =>
                @List.Forall_cons pyobj child_holds child cs'
                  (match child return child_holds child with
                   | PElement e' => Element_children_ind e'
                   | _ => I
                   end)
                  (all cs')
            end) children)
  end.

End ElementInduction.

(** The globals only gain entries from [g] to [g']: the counter does not
    go back and every id made from a passed counter value keeps its
    handler. *)
Definition extends (g g' : Globals) : Prop :=
  _handler_counter g <= _handler_counter g'
  /\ forall n, n < _handler_counter g ->
       _event_handlers g' !! handler_name n = _event_handlers g !! handler_name n.

(** ** The RPC endpoint, the root render and the registrations of a tree *)

Section Endpoint.

Variable py_repr : pyobj -> string.

Notation "x <- m ;; k" := (bind m (fun x => k))
  (at level 100, m at next level, right associativity).
Notation "m ;; k" := (bind m (fun _ => k))
  (at level 100, right associativity).

(** [QuickTemplate._setup_rpc_handlers]: the dispatch table. *)
Definition rpc_handlers : list (string * (RpcData -> M (list (string * rval)))) :=
  [("update_state", _handle_update_state py_repr);
   ("dispatch_action", _handle_dispatch_action py_repr);
   ("get_initial_state", _handle_get_initial_state);
   ("execute_handler", _handle_execute_handler py_repr)].

(** The body of a reply of the [/rpc] route: [{"result": ...}] or
    [{"error": ...}]. *)
Inductive RpcReply : Type :=
  | RpcResult (result : list (string * rval))
  | RpcError (error : string).

(** [data.get("params", {})]: every parameter of an empty mapping is
    absent. *)
Definition empty_params : RpcData := mkRpcData VNone VNone VNone VNone VNone.

(** [rpc_handler] of [run]: the [POST /rpc] route. *)
Definition rpc_handler (method : option string) (params : option RpcData)
  : M RpcReply :=
  match method with
  | Some name =>
      match PyDict.get name rpc_handlers with
      | Some handler =>
          result <- handler (default empty_params params);;
          ret (RpcResult result)
      | None => ret (RpcError ("Unknown method: " +:+ name))
      end
  | None => ret (RpcError ("Unknown method: " +:+ "None"))
  end.

(** One message of the loop of [websocket_handler] of [run]: the frame sent
    back, [{"id": ..., "result": ...}], if any. *)
Definition websocket_message (message_id : value) (method : option string)
    (params : option RpcData) : M (option (value * list (string * rval))) :=
  match method with
  | Some name =>
      match PyDict.get name rpc_handlers with
      | Some handler =>
          result <- handler (default empty_params params);;
          ret (Some (message_id, result))
      | None => ret None
      end
  | None => ret None
  end.

(** [QuickTemplate.render_to_dict]; the root is held by its id in the
    registry. *)
Definition render_to_dict : M pyobj :=
  w <- get_world;;
  match root_component w with
  | Some root_id =>
      match components w !! root_id with
      | Some root =>
          let '(hc, r) := render root (hook_context root) in
          modify (fun w =>
            set_components (<[root_id := with_hook_context root hc]>
                              (components w)) w);;
          match r with
          | Ok element => ret (to_dict py_repr element)
          | Raise msg => raise msg
          end
      | None =>
          ret (PDict [("tag", PStr "div"); ("props", PDict []);
                      ("children", PList []); ("key", PNone);
                      ("componentId", PNone)])
      end
  | None =>
      ret (PDict [("tag", PStr "div"); ("props", PDict []);
                  ("children", PList []); ("key", PNone);
                  ("componentId", PNone)])
  end.

End Endpoint.

(** The registries of the engine are the same in [w] and [w']: the same
    component ids, the same globals, root and live channel. *)
Definition same_registries (w w' : World) : Prop :=
  dom (components w') = dom (components w)
  /\ globals w' = globals w
  /\ root_component w' = root_component w
  /\ _websocket_manager w' = _websocket_manager w.

(** A computation keeps the registries when it does so from every world,
    whether it returns or raises. *)
Definition keeps {A} (m : M A) : Prop :=
  forall w, same_registries w (snd (m w)).

(** Every value of the mapping is a string. *)
Definition string_valued (ps : list (string * pyobj)) : Prop :=
  Forall (fun kv => exists s, snd kv = PStr s) ps.

(** The callables [to_html] registers for an element, in the order it does:
    those of the props whose key starts with [on_], then, unless the tag is
    self-closing, those of the children from left to right. *)
Definition prop_handlers (ps : list (string * pyobj)) : list Callable :=
  flat_map (fun kv =>
    match snd kv with
    | PCallable f => if startswith "on_" (fst kv) then [f] else []
    | _ => []
    end) ps.

Fixpoint event_handlers_of (e : Element) : list Callable :=
  match e with
  | mkElement tag props children _ _ =>
      prop_handlers props ++
      (if is_self_closing tag then []
       else flat_map child_handlers children)
  end
with child_handlers (child : pyobj) : list Callable :=
  match child with
  | PElement e => event_handlers_of e
  | _ => []
  end.

(** ** State-setter helpers: [bind], [set_state], [create_event_handler] *)

(** The exceptions these helpers let out. *)
Inductive pyexn : Type :=
  | ValueError (msg : string)
  | AttributeError (msg : string).

Inductive raised (A : Type) : Type :=
  | Returns (a : A)
  | Raises (e : pyexn).
Arguments Returns {A} a.
Arguments Raises {A} e.

(** An object passed as a setter: the name of its type and its [state_key]
    attribute, if it has one (the setters of [use_state] do). *)
Record SetterObject : Type := mkSetterObject {
  type_name : string;
  state_key_attr : option string
}.

(** A callable passed as the new value: [__name__] if it has one, the text
    of [__code__.co_consts] if it has [__code__], what calling it with [1]
    gives, and its [str]. *)
Record FunctionObject : Type := mkFunctionObject {
  name_attr : option string;
  co_consts_str : option string;
  call_with_1 : result value;
  function_str : string
}.

Inductive FuncOrValue : Type :=
  | IsCallable (f : FunctionObject)
  | NotCallable (v : value).

(** [needle in text] for strings. *)
Fixpoint contains_substring (needle text : string) : bool :=
  String.prefix needle text
  || match text with
     | EmptyString => false
     | String _ text' => contains_substring needle text'
     end.

(** [x == n] for an integer literal [n]: an [int] compares by value, a
    [bool] as [0] or [1], any other value is unequal. *)
Definition py_eq_int (x : value) (n : Z) : bool :=
  match x with
  | VInt m => Z.eqb m n
  | VBool b => Z.eqb (if b then 1 else 0) n
  | _ => false
  end.

Fixpoint to_pyobj (v : value) : pyobj :=
  match v with
  | VNone => PNone
  | VBool b => PBool b
  | VInt n => PInt n
  | VStr s => PStr s
  | VList l => PList (map to_pyobj l)
  | VDict d => PDict (map (fun kv => (fst kv, to_pyobj (snd kv))) d)
  end.

Definition not_a_setter : string :=
  "Function is not a state setter from use_state or use_named_state".

(** [bind(setter_func)] *)
Definition bind_setter (setter_func : SetterObject) : raised string :=
  match state_key_attr setter_func with
  | Some state_key => Returns state_key
  | None => Raises (ValueError not_a_setter)
  end.

(** [set_state(setter_func, value_expression)] *)
Definition set_state (setter_func : SetterObject) (value_expression : string)
  : raised string :=
  match state_key_attr setter_func with
  | Some state_key =>
      Returns ("setState('" +:+ state_key +:+ "', " +:+ value_expression +:+ ")")
  | None => Raises (ValueError not_a_setter)
  end.

Section EventHandlerScript.

Variable py_repr : pyobj -> string.

(** [name == wanted or (hasattr(f, '__code__') and marker in str(consts))] *)
Definition looks_like (f : FunctionObject) (wanted marker : string) : bool :=
  bool_decide (default "anonymous" (name_attr f) = wanted)
  || match co_consts_str f with
     | Some consts => contains_substring marker consts
     | None => false
     end.

(** [create_event_handler(setter_func, func_or_value)] *)
Definition create_event_handler (setter_func : SetterObject)
    (func_or_value : FuncOrValue) : raised string :=
  match state_key_attr setter_func with
  | None =>
      Raises (AttributeError
                ("'" +:+ type_name setter_func
                   +:+ "' object has no attribute 'state_key'"))
  | Some state_key =>
      let current := "(state." +:+ state_key +:+ " || 0)" in
      let script body := "setState('" +:+ state_key +:+ "', " +:+ body +:+ ")" in
      match func_or_value with
      | IsCallable f =>
          if looks_like f "increment" "return last_count + 1" then
            Returns (script (current +:+ " + 1"))
          else if looks_like f "decrement" "return last_count - 1" then
            Returns (script (current +:+ " - 1"))
          else if looks_like f "reset_to_zero" "return 0" then
            Returns (script "0")
          else
            match call_with_1 f with
            | Ok test_result =>
                if py_eq_int test_result 2 then
                  Returns (script (current +:+ " + 1"))
                else if py_eq_int test_result 0 then
                  Returns (script (current +:+ " - 1"))
                else if py_eq_int test_result 2 then
                  Returns (script (current +:+ " * 2"))
                else
                  Returns (script ("(" +:+ function_str f +:+ ")" +:+ current))
            | Raise _ => Returns (script current)
            end
      | NotCallable v => Returns (script (py_str py_repr (to_pyobj v)))
      end
  end.

End EventHandlerScript.

(** The last character of a string. *)
Fixpoint last_char (s : string) : option ascii :=
  match s with
  | EmptyString => None
  | String c EmptyString => Some c
  | String _ s' => last_char s'
  end.

(** ** A caller of the builder: the widgets of [ui/components.py] *)

(** [class Component] of [ui/components.py]: the fields that [get_props]
    and the [render] methods below read. *)
Record Widget : Type := mkWidget {
  label : option string;
  widget_value : pyobj;
  visible : bool;
  elem_id : option string;
  elem_classes : list string;
  show_label : bool
}.

(** The truth value of an optional string: [None] and [""] are false. *)
Definition truthy (o : option string) : bool :=
  match o with
  | Some (String _ _) => true
  | _ => false
  end.

(** The truth value of an object. *)
Definition py_truthy (o : pyobj) : bool :=
  match o with
  | PNone => false
  | PBool b => b
  | PInt n => negb (Z.eqb n 0)
  | PStr s => negb (bool_decide (s = ""))
  | PDict d => negb (bool_decide (d = []))
  | PList l => negb (bool_decide (l = []))
  | _ => true
  end.

(** [Component.get_props] *)
Definition get_props (self : Widget) : list (string * pyobj) :=
  let props := [] in
  let props :=
    if truthy (elem_id self)
    then PyDict.set "id" (PStr (default "" (elem_id self))) props
    else props in
  let props :=
    match elem_classes self with
    | [] => props
    | _ => PyDict.set "class_" (PStr (join " " (elem_classes self))) props
    end in
  if visible self then props
  else PyDict.set "style" (PStr "display: none;") props.

Section Widgets.

Variable py_repr : pyobj -> string.

Definition Text_base_classes : string :=
  "p-4 bg-gray-100 rounded-md border border-gray-200 min-h-[60px] text-gray-800".

(** The props of [Text.render] after the class has been set. *)
Definition Text_props (self : Widget) : list (string * pyobj) :=
  let props := get_props self in
  match PyDict.get "class_" props with
  | Some c =>
      if py_truthy c
      then PyDict.set "class_"
             (PStr (Text_base_classes +:+ " " +:+ py_str py_repr c)) props
      else PyDict.set "class_" (PStr Text_base_classes) props
  | None => PyDict.set "class_" (PStr Text_base_classes) props
  end.

(** [Text.render] *)
Definition Text_render (self : Widget) : Element :=
  let props := Text_props self in
  if show_label self && truthy (label self) then
    HTMLElement_call py_repr (HTMLBuilder_getattr "div")
      [PDict [("class", PStr "form-group mb-4")];
       PElement
         (HTMLElement_call py_repr (HTMLBuilder_getattr "label")
            [PDict [("class",
                     PStr "block text-sm font-medium text-gray-700 mb-2")];
             PStr (default "" (label self))] []);
       PElement
         (HTMLElement_call py_repr (HTMLBuilder_getattr "div")
            [PDict props; widget_value self] [])] []
  else
    HTMLElement_call py_repr (HTMLBuilder_getattr "div")
      [PDict props; widget_value self] [].

End Widgets.

(** The widget with its label switched off. *)
Definition without_label (self : Widget) : Widget :=
  mkWidget (label self) (widget_value self) (visible self) (elem_id self)
    (elem_classes self) false.

(** The child arguments of a builder call from which a serializable tree
    is built: elements that are serializable, lists of such elements and of
    strings; any other argument is stringified or skipped by the call. *)
Definition args_serializable (args : list pyobj) : bool :=
  forallb (fun arg =>
    match arg with
    | PElement e => serializable e
    | PList l => forallb serializable_child l
    | _ => true
    end) (child_args args).

(** ** Concrete scenarios *)

(** A [repr] that prints every compound object the same way. *)
Definition repr_opaque (o : pyobj) : string := "<object>".

(** A render pass that returns a fixed element and leaves the hook context
    as it is. *)
Definition counter_view (hc : HookContext) : HookContext * result Element :=
  (hc, Ok (mkElement "div" [] [PStr "counter"] None None)).

(** [lambda state, action: state + action] and a reducer that raises. *)
Definition add_reducer : ReducerInfo :=
  mkReducerInfo
    (fun st a =>
       match st, a with
       | VInt n, VInt m => Ok (VInt (n + m))
       | _, _ => Raise "unsupported operand"
       end)
    "count".

Definition failing_reducer : ReducerInfo :=
  mkReducerInfo (fun _ _ => Raise "boom") "count".

(** Component [c1]: state [{count: 5}], two reducers. *)
Definition counter : Component :=
  mkComponent "c1"
    (mkHookContext [("count", VInt 5)]
       [("reducer_0", add_reducer); ("reducer_1", failing_reducer)])
    counter_view.

(** The same with the raising reducer first. *)
Definition failing_counter : Component :=
  mkComponent "c1"
    (mkHookContext [("count", VInt 5)]
       [("reducer_0", failing_reducer); ("reducer_1", add_reducer)])
    counter_view.

(** [lambda e: None] and [lambda e: (lambda count: count + 1)]. *)
Definition noop_handler : Callable :=
  mkCallable (fun _ heap => (heap, HReturn VNone)).

Definition increment_handler : Callable :=
  mkCallable (fun _ heap =>
    (heap,
     HReturnCallable (fun v =>
       match v with
       | VInt n => Ok (VInt (n + 1))
       | _ => Raise "unsupported operand"
       end))).

(** The globals after [noop_handler] and [increment_handler] were
    registered, as [handler_0] and [handler_1]. *)
Definition example_globals : Globals :=
  snd (register_all [noop_handler; increment_handler] initial_globals).

Definition example_world : World :=
  mkWorld {["c1" := counter]} (Some "c1") false example_globals [].

Definition failing_world : World :=
  mkWorld {["c1" := failing_counter]} (Some "c1") false example_globals [].

Definition empty_world : World := mkWorld ∅ None false initial_globals [].

(** [html.div({"class_": "a"}, html.span({}, "hi"))], an [img] with a child
    and a button with two event attributes. *)
Definition span_hi : Element :=
  HTMLElement_call repr_opaque (HTMLBuilder_getattr "span") [PDict []; PStr "hi"] [].

Definition div_a : Element :=
  HTMLElement_call repr_opaque (HTMLBuilder_getattr "div")
    [PDict [("class_", PStr "a")]; PElement span_hi] [].

Definition img_with_child : Element :=
  mkElement "img" [("src", PStr "a.png")] [PStr "ignored"] None None.

Definition button : Element :=
  mkElement "button"
    [("on_click", PCallable increment_handler); ("on_submit", PStr "save")]
    [PStr "+"] None None.

(** A component whose render pass raises, and a handler that writes a
    state map and then raises. *)
Definition broken_counter : Component :=
  mkComponent "c1"
    (mkHookContext [("count", VInt 5)] [("reducer_0", add_reducer)])
    (fun hc => (hc, Raise "render failed")).

Definition broken_world : World :=
  mkWorld {["c1" := broken_counter]} (Some "c1") true example_globals [].

Definition raising_handler : Callable :=
  mkCallable (fun _ heap =>
    (<["c1" := [("count", VInt 99)]]> heap, HRaise "handler failed")).

Definition raising_world : World :=
  mkWorld {["c1" := counter]} (Some "c1") false
    (snd (register_all [raising_handler] initial_globals)) [].

(** A setter made by [use_state] for the key [count], and a function that
    doubles its argument. *)
Definition count_setter : SetterObject := mkSetterObject "function" (Some "count").

Definition doubling : FunctionObject :=
  mkFunctionObject (Some "<lambda>") (Some "(None, 2)") (Ok (VInt 2))
    "<function <lambda>>".

(** A text widget with a label, an id and a class, whose value holds
    markup. *)
Definition greeting : Widget :=
  mkWidget (Some "Greeting") (PStr "<b>hi</b>") true (Some "t1") ["wide"] true.

(** The world with [c1] mounted after the button was emitted. *)
Definition rendered_world : World :=
  mkWorld {["c1" := counter]} (Some "c1") false
    (snd (to_html repr_opaque button example_globals)) [].

(** * Properties *)

(** ** The handler registry *)

Lemma handler_name_inj (m n : nat) : handler_name m = handler_name n -> m = n.
Proof.
  unfold handler_name. intros H.
  apply (inj (String.app "handler_")) in H.
  by apply (inj pretty) in H.
Qed.

Lemma registry_inv_initial : registry_inv initial_globals.
Proof. intros hid [f Hf]. cbn in Hf. by rewrite lookup_empty in Hf. Qed.

Lemma register_event_handler_fresh (h : Callable) (g : Globals) :
  registry_inv g ->
  _event_handlers g !! fst (register_event_handler h g) = None.
Proof.
  intros Hinv. cbn.
  destruct (_event_handlers g !! handler_name (_handler_counter g)) as [f|] eqn:E;
    [|done].
  destruct (Hinv _ (mk_is_Some _ _ E)) as (n & Hn & Heq).
  apply handler_name_inj in Heq. lia.
Qed.

Lemma register_event_handler_inv (h : Callable) (g : Globals) :
  registry_inv g -> registry_inv (snd (register_event_handler h g)).
Proof.
  intros Hinv hid. cbn.
  destruct (decide (handler_name (_handler_counter g) = hid)) as [<-|Hne].
  - intros _. exists (_handler_counter g). split; [lia|done].
  - rewrite lookup_insert_ne by done. intros Hs.
    destruct (Hinv _ Hs) as (n & Hn & ->). exists n. split; [lia|done].
Qed.

Lemma register_all_spec (hs : list Callable) (g : Globals) :
  fst (register_all hs g)
    = map handler_name (seq (_handler_counter g) (length hs))
  /\ _handler_counter (snd (register_all hs g)) = _handler_counter g + length hs
  /\ (registry_inv g -> registry_inv (snd (register_all hs g))).
Proof.
  revert g. induction hs as [|h hs IH]; intros g.
  - cbn. split; [done|]. split; [lia|done].
  - cbn [register_all].
    destruct (register_event_handler h g) as [hid g1] eqn:E1.
    pose proof (IH g1) as (Hids & Hcnt & Hinv).
    destruct (register_all hs g1) as [ids g2] eqn:E2. cbn in *.
    assert (hid = handler_name (_handler_counter g)
            /\ _handler_counter g1 = S (_handler_counter g)) as [-> Hc].
    { unfold register_event_handler in E1. by inversion E1. }
    rewrite Hc in *. split; [by rewrite Hids|]. split; [lia|].
    intros Hg. apply Hinv.
    replace g1 with (snd (register_event_handler h g)) by (rewrite E1; done).
    by apply register_event_handler_inv.
Qed.

(** C10: in every run of the registry from module import, the next call of
    [register_event_handler] returns [handler_<n>] for the current counter
    value [n], which the call increases by one; the id differs from every id
    returned before; afterwards the registry maps the id to the handler, and
    every entry that was there is still there with the same handler. *)
Theorem register_event_handler_grows (hs : list Callable) (h : Callable) :
  let before := register_all hs initial_globals in
  let call := register_event_handler h (snd before) in
  fst call = handler_name (_handler_counter (snd before))
  /\ _handler_counter (snd call) = S (_handler_counter (snd before))
  /\ (fst call ∉ fst before)
  /\ _event_handlers (snd call) !! fst call = Some h
  /\ (forall hid f, _event_handlers (snd before) !! hid = Some f ->
        _event_handlers (snd call) !! hid = Some f)
  /\ _event_handlers (snd before) ⊆ _event_handlers (snd call).
Proof.
  intros before call.
  destruct (register_all_spec hs initial_globals) as (Hids & Hcnt & Hinv).
  fold before in Hids, Hcnt, Hinv.
  specialize (Hinv registry_inv_initial).
  pose proof (register_event_handler_fresh h _ Hinv) as Hfresh.
  fold call in Hfresh.
  assert (Hkeep : forall hid f, _event_handlers (snd before) !! hid = Some f ->
            _event_handlers (snd call) !! hid = Some f).
  { intros hid f Hf. subst call. cbn in *.
    rewrite lookup_insert_ne; [done|]. intros <-. congruence. }
  split; [done|]. split; [done|]. split; [|split; [|split]].
  - rewrite Hids. cbn in Hcnt. intros Hin.
    apply list_elem_of_fmap in Hin as (n & Heq & Hn).
    subst call. cbn in Heq. apply handler_name_inj in Heq.
    apply elem_of_seq in Hn. cbn in Hn. lia.
  - subst call. cbn. apply lookup_insert_eq.
  - exact Hkeep.
  - apply map_subseteq_spec. exact Hkeep.
Qed.

(** ** The RPC handlers *)

Section Engine.

Variable py_repr : pyobj -> string.

#[local] Arguments update_component : simpl never.

Ltac run :=
  unfold _handle_update_state, _handle_get_initial_state,
    _handle_dispatch_action, dispatch_body, store_states, try_except,
    bind, lift, get_world, modify, ret, raise; cbn.

(** The membership test on the registry, by the kind of id. *)
Lemma find_component_str (cid : string) (w : World) :
  find_component (VStr cid) w
    = Ok (match components w !! cid with
          | Some c => Some (cid, c)
          | None => None
          end).
Proof. unfold find_component. cbn. by destruct (components w !! cid). Qed.

Lemma find_component_raise (component_id : value) (w : World) (msg : string) :
  find_component component_id w = Raise msg <-> hashed component_id = Raise msg.
Proof.
  unfold find_component.
  destruct (hashed component_id) as [[cid|]|msg'];
    [by destruct (components w !! cid)|done|].
  split; by intros [= ->].
Qed.

Lemma find_component_none (component_id : value) (w : World) :
  find_component component_id w = Ok None
  <-> hashed component_id = Ok None
      \/ exists cid, hashed component_id = Ok (Some cid)
                     /\ components w !! cid = None.
Proof.
  unfold find_component.
  destruct (hashed component_id) as [[cid|]|msg'].
  - destruct (components w !! cid) eqn:Hc; split.
    + done.
    + intros [|(cid' & [= <-] & ?)]; congruence.
    + intros _. right. by exists cid.
    + done.
  - split; [by left|done].
  - split; [done|]. by intros [|(cid' & ? & ?)].
Qed.

Lemma find_component_some (component_id : value) (w : World) (cid : string)
    (c : Component) :
  find_component component_id w = Ok (Some (cid, c))
  <-> component_id = VStr cid /\ components w !! cid = Some c.
Proof.
  unfold find_component. split.
  - destruct component_id; cbn; try done.
    destruct (components w !! s) eqn:Hc; [|done]. by intros [= <- <-].
  - intros [-> Hc]. cbn. by rewrite Hc.
Qed.

(** A list or an object is what cannot be hashed. *)
Lemma hashed_raise (key : value) (msg : string) :
  hashed key = Raise msg
  <-> (exists l, key = VList l /\ msg = "unhashable type: 'list'")
      \/ (exists d, key = VDict d /\ msg = "unhashable type: 'dict'").
Proof.
  split.
  - destruct key; cbn; intros [= <-]; [left|right]; eauto.
  - by intros [(l & -> & ->)|(d & -> & ->)].
Qed.

(** What [update_component] does for a mounted component whose render pass
    returns an element. *)
Lemma update_component_rendered (w : World) (cid : string) (c : Component)
    (hc : HookContext) (e : Element) :
  components w !! cid = Some c ->
  render c (hook_context c) = (hc, Ok e) ->
  update_component py_repr cid w =
    (Return tt,
     let w1 := emit (Render cid) (emit (UpdateComponent cid) w) in
     let w2 := set_components (<[cid := with_hook_context c hc]> (components w)) w1 in
     if _websocket_manager w then emit (Broadcast cid (to_dict py_repr e)) w2 else w2).
Proof.
  intros Hc Hr. unfold update_component, bind, get_world, modify, ret. cbn.
  rewrite Hc, Hr. cbn. by destruct (_websocket_manager w).
Qed.

(** C2, as the code has it: [updateState] for a component id that can be
    hashed ([None], a boolean, a number or a string) and is not a key of the
    registry returns the not-found result and leaves the world, so every
    state map, as it was, whatever the state key and the value.  For a
    component id that cannot be hashed (a list or an object) the membership
    test raises [TypeError]; the handler lets it out, returns no result, and
    the world is as it was. *)
Theorem update_state_unknown_component (w : World) (data : RpcData) :
  (find_component (componentId data) w = Ok None ->
     _handle_update_state py_repr data w
       = (Return [("success", RBool false);
                  ("error", RStr "Component or state not found")], w))
  /\ (forall msg,
        hashed (componentId data) = Raise msg ->
        _handle_update_state py_repr data w = (Raised msg, w))
  /\ (find_component (componentId data) w = Ok None
      <-> hashed (componentId data) = Ok None
          \/ exists cid, componentId data = VStr cid
                         /\ components w !! cid = None)
  /\ (forall msg,
        hashed (componentId data) = Raise msg
        <-> (exists l, componentId data = VList l
                       /\ msg = "unhashable type: 'list'")
            \/ (exists d, componentId data = VDict d
                          /\ msg = "unhashable type: 'dict'")).
Proof.
  split; [|split; [|split]].
  - intros Hnone. run. by rewrite Hnone.
  - intros msg Hraise. apply find_component_raise with (w := w) in Hraise.
    run. by rewrite Hraise.
  - rewrite find_component_none. split.
    + intros [H|(cid & H & Hc)]; [by left|right]. exists cid. split; [|done].
      destruct (componentId data); cbn in H; congruence.
    + intros [H|(cid & H & Hc)]; [by left|right]. exists cid.
      by rewrite H.
  - intros msg. apply hashed_raise.
Qed.


Lemma get_set_eq {V} (k : string) (v : V) (d : list (string * V)) :
  PyDict.get k (PyDict.set k v d) = Some v.
Proof.
  induction d as [|[k' v'] d IH]; cbn.
  - by rewrite decide_True.
  - destruct (decide (k' = k)) as [->|Hne]; cbn.
    + by rewrite decide_True.
    + by rewrite decide_False.
Qed.

Lemma get_set_ne {V} (k k' : string) (v : V) (d : list (string * V)) :
  k <> k' -> PyDict.get k' (PyDict.set k v d) = PyDict.get k' d.
Proof.
  intros Hne. induction d as [|[k0 v0] d IH]; cbn.
  - by rewrite decide_False.
  - destruct (decide (k0 = k)) as [->|Hne0]; cbn.
    + by rewrite !decide_False.
    + destruct (decide (k0 = k')); [done|apply IH].
Qed.

(** [updateState] on a mounted component that has the state key: the value
    is stored, then the component is updated. *)
Lemma update_state_found (w : World) (cid k : string) (c : Component)
    (v a hid : value) :
  components w !! cid = Some c ->
  PyDict.contains k (states (hook_context c)) = true ->
  _handle_update_state py_repr (mkRpcData (VStr cid) (VStr k) v a hid) w
    = match update_component py_repr cid
              (set_components
                 (alter (fun c' => with_states c'
                           (PyDict.set k v (states (hook_context c))))
                    cid (components w)) w) with
      | (Return _, w') => (Return [("success", RBool true)], w')
      | (Raised msg, w') => (Raised msg, w')
      end.
Proof.
  intros Hc Hk. run. rewrite Hc. cbn. rewrite Hk. cbn.
  by destruct (update_component py_repr _ _) as [[[]|msg] w'].
Qed.


(** An update adds the request and then only render and broadcast effects
    to the log, whatever the render pass does. *)
Lemma update_component_trace (w : World) (cid : string) :
  exists more,
    trace (snd (update_component py_repr cid w))
      = trace w ++ UpdateComponent cid :: more
    /\ Forall (fun ev => is_update_effect ev = true) more.
Proof.
  unfold update_component, bind, get_world, modify, ret, raise. cbn.
  destruct (components w !! cid) as [c|]; cbn.
  - destruct (render c (hook_context c)) as [hc [el|msg]]; cbn.
    + destruct (_websocket_manager w); cbn.
      * eexists [_; _]. rewrite <- !app_assoc. split; [done|].
        by repeat constructor.
      * eexists [_]. rewrite <- !app_assoc. split; [done|].
        by repeat constructor.
    + eexists [_]. rewrite <- !app_assoc. split; [done|].
      by repeat constructor.
  - by exists [].
Qed.

(** [dispatchAction] on a mounted component with at least one reducer: the
    first entry of the reducer map decides the call; the entries after it do
    not occur on the right-hand side. *)
Lemma dispatch_action_first (w : World) (data : RpcData) (cid : string)
    (c : Component) (rk : string) (info : ReducerInfo)
    (rest : list (string * ReducerInfo)) :
  componentId data = VStr cid ->
  components w !! cid = Some c ->
  reducers (hook_context c) = (rk, info) :: rest ->
  let current_state :=
    default VNone (PyDict.get (state_key info) (states (hook_context c))) in
  let w1 := emit (CallReducer rk current_state (action data)) w in
  _handle_dispatch_action py_repr data w
    = match reducer info current_state (action data) with
      | Raise msg =>
          (Return [("success", RBool false); ("error", RStr msg)], w1)
      | Ok new_state =>
          match update_component py_repr cid
                  (set_components
                     (alter (fun c' => with_states c'
                               (PyDict.set (state_key info) new_state
                                  (states (hook_context c))))
                        cid (components w)) w1) with
          | (Return _, w') => (Return [("success", RBool true)], w')
          | (Raised msg, w') =>
              (Return [("success", RBool false); ("error", RStr msg)], w')
          end
      end.
Proof.
  intros Hid Hc Hrs current_state w1.
  unfold _handle_dispatch_action, bind, lift, get_world. rewrite Hid. cbn.
  rewrite Hc. cbn. rewrite Hrs. cbn [for_each].
  unfold dispatch_body, store_states, try_except, bind, get_world, modify,
    ret, raise. cbn. rewrite Hc. fold current_state.
  destruct (reducer info current_state (action data)) as [new_state|msg]; cbn;
    [|done].
  by destruct (update_component py_repr _ _) as [[[]|msg] w'].
Qed.

Lemma update_effect_not_reducer_call (evs : list Effect) :
  Forall (fun ev => is_update_effect ev = true) evs ->
  Forall (fun ev => is_reducer_call ev = false) evs.
Proof. intros H. eapply Forall_impl; [exact H|]. by intros []. Qed.

(** C4: [dispatchAction] on a mounted component with two or more reducers
    invokes one reducer, the first of the reducer map in insertion order, on
    the current value of its bound state key ([None] when the key is not in
    the state map) and the action.  The log gets that call and, after it, no
    other reducer call.  What the first reducer returns is stored under its
    state key in the component's state map, the other components stay as
    they are, the component is then updated and the result of the request
    is that of the update; when the first reducer raises, the result is the
    failure with its message and no state map has changed. *)
Theorem dispatch_action_invokes_first_reducer (w : World) (data : RpcData)
    (cid : string) (c : Component) (rk : string) (info : ReducerInfo)
    (second : string * ReducerInfo) (rest : list (string * ReducerInfo)) :
  componentId data = VStr cid ->
  components w !! cid = Some c ->
  reducers (hook_context c) = (rk, info) :: second :: rest ->
  let current_state :=
    default VNone (PyDict.get (state_key info) (states (hook_context c))) in
  let out := _handle_dispatch_action py_repr data w in
  (exists more,
      trace (snd out)
        = trace w ++ CallReducer rk current_state (action data) :: more
      /\ Forall (fun ev => is_reducer_call ev = false) more)
  /\ (forall new_state,
        reducer info current_state (action data) = Ok new_state ->
        exists w0,
          components w0 !! cid
            = Some (with_states c
                      (PyDict.set (state_key info) new_state
                         (states (hook_context c))))
          /\ (forall other, other <> cid ->
                components w0 !! other = components w !! other)
          /\ trace w0 = trace w ++ [CallReducer rk current_state (action data)]
          /\ out = match update_component py_repr cid w0 with
                   | (Return _, w') => (Return [("success", RBool true)], w')
                   | (Raised msg, w') =>
                       (Return [("success", RBool false); ("error", RStr msg)], w')
                   end
          /\ exists more,
              trace (snd out) = trace w0 ++ UpdateComponent cid :: more)
  /\ (forall msg,
        reducer info current_state (action data) = Raise msg ->
        out = (Return [("success", RBool false); ("error", RStr msg)],
               emit (CallReducer rk current_state (action data)) w)).
Proof.
  intros Hid Hc Hrs current_state out.
  pose proof (dispatch_action_first w data cid c rk info _ Hid Hc Hrs) as Heq.
  cbv zeta in Heq. fold current_state in Heq. fold out in Heq.
  split; [|split].
  - rewrite Heq.
    destruct (reducer info current_state (action data)) as [new_state|msg].
    + match goal with |- context [update_component py_repr cid ?w0] =>
        destruct (update_component_trace w0 cid) as (more & Ht & Hmore);
        destruct (update_component py_repr cid w0) as [[[]|msg] w'] eqn:E
      end; cbn in *; rewrite Ht, <- app_assoc; cbn;
        (eexists; split; [reflexivity|]);
        (constructor; [done|by apply update_effect_not_reducer_call]).
    + exists []. by split.
  - intros new_state Hr. rewrite Hr in Heq.
    eexists. split; [|split; [|split; [|split; [exact Heq|]]]].
    + cbn. by rewrite lookup_alter_eq, Hc.
    + intros other Hother. cbn. by rewrite lookup_alter_ne.
    + done.
    + rewrite Heq.
      match goal with |- context [update_component py_repr cid ?w0] =>
        destruct (update_component_trace w0 cid) as (more & Ht & _);
        destruct (update_component py_repr cid w0) as [[[]|msg] w'] eqn:E
      end; cbn in *; eauto.
  - intros msg Hr. by rewrite Heq, Hr.
Qed.

(** C5, as the code has it: for a component id that can be hashed
    ([None], a boolean, a number or a string) [dispatchAction] returns a
    result, it lets no exception out.  When the reducer it calls raises,
    the result is [{success: False, error: <message>}]; when the component
    is unknown, or is mounted with no reducer, the result is the not-found
    failure and the world is as it was.  For a component id that cannot be
    hashed (a list or an object) the membership test, which is outside the
    [try], raises [TypeError]: the handler lets it out and returns no
    result. *)
Theorem dispatch_action_failures (w : World) (data : RpcData) :
  (forall key,
      hashed (componentId data) = Ok key ->
      exists response w',
        _handle_dispatch_action py_repr data w = (Return response, w'))
  /\ (forall cid c rk info rest msg,
        componentId data = VStr cid ->
        components w !! cid = Some c ->
        reducers (hook_context c) = (rk, info) :: rest ->
        reducer info
          (default VNone (PyDict.get (state_key info) (states (hook_context c))))
          (action data) = Raise msg ->
        exists w',
          _handle_dispatch_action py_repr data w
            = (Return [("success", RBool false); ("error", RStr msg)], w'))
  /\ (find_component (componentId data) w = Ok None ->
        _handle_dispatch_action py_repr data w
          = (Return [("success", RBool false);
                     ("error", RStr "Component or reducer not found")], w))
  /\ (forall cid c,
        find_component (componentId data) w = Ok (Some (cid, c)) ->
        reducers (hook_context c) = [] ->
        _handle_dispatch_action py_repr data w
          = (Return [("success", RBool false);
                     ("error", RStr "Component or reducer not found")], w))
  /\ (forall msg,
        hashed (componentId data) = Raise msg ->
        _handle_dispatch_action py_repr data w = (Raised msg, w))
  /\ (forall msg,
        hashed (componentId data) = Raise msg
        <-> (exists l, componentId data = VList l
                       /\ msg = "unhashable type: 'list'")
            \/ (exists d, componentId data = VDict d
                          /\ msg = "unhashable type: 'dict'")).
Proof.
  assert (Hnone : find_component (componentId data) w = Ok None ->
            _handle_dispatch_action py_repr data w
              = (Return [("success", RBool false);
                         ("error", RStr "Component or reducer not found")], w)).
  { intros Hn. unfold _handle_dispatch_action, bind, lift, get_world, ret. cbn.
    by rewrite Hn. }
  assert (Hempty : forall cid c,
            find_component (componentId data) w = Ok (Some (cid, c)) ->
            reducers (hook_context c) = [] ->
            _handle_dispatch_action py_repr data w
              = (Return [("success", RBool false);
                         ("error", RStr "Component or reducer not found")], w)).
  { intros cid c Hc Hrs.
    unfold _handle_dispatch_action, bind, lift, get_world, ret. cbn.
    rewrite Hc. by rewrite Hrs. }
  split; [|split; [|split; [|split; [|split]]]];
    [| |exact Hnone|exact Hempty| |].
  - intros key Hkey.
    destruct (find_component (componentId data) w) as [[[cid c]|]|msg] eqn:Hf.
    + destruct (reducers (hook_context c)) as [|[rk info] rest] eqn:Hrs;
        [rewrite (Hempty cid c) by done; eauto|].
      apply find_component_some in Hf as [Hid Hc].
      rewrite (dispatch_action_first w data cid c rk info rest Hid Hc Hrs).
      destruct (reducer info _ (action data)); [|eauto].
      destruct (update_component py_repr cid _) as [[[]|msg] w']; eauto.
    + rewrite Hnone by done. eauto.
    + apply find_component_raise in Hf. congruence.
  - intros cid c rk info rest msg Hid Hc Hrs Hraise.
    rewrite (dispatch_action_first w data cid c rk info rest Hid Hc Hrs).
    rewrite Hraise. eauto.
  - intros msg Hraise. apply find_component_raise with (w := w) in Hraise.
    unfold _handle_dispatch_action, bind, lift, get_world, ret. cbn.
    by rewrite Hraise.
  - intros msg. apply hashed_raise.
Qed.

Lemma lookup_with_heap (heap : Heap) (cs : gmap string Component)
    (cid : string) (c : Component) :
  cs !! cid = Some c ->
  with_heap heap cs !! cid = Some (with_states c (states_after heap cid c)).
Proof.
  intros Hc. unfold with_heap, states_after.
  rewrite map_lookup_imap, Hc. cbn.
  by destruct (heap !! cid); destruct c as [i [st rd] rn].
Qed.

(** [executeHandler] for a registered handler and a mounted component, path
    by path. *)
Lemma execute_handler_found (w : World) (data : RpcData) (hid cid : string)
    (h : Callable) (c : Component) (heap : Heap) (r : HandlerResult) :
  handlerId data = VStr hid ->
  componentId data = VStr cid ->
  _event_handlers (globals w) !! hid = Some h ->
  components w !! cid = Some c ->
  fn_call h MockEvent_new (heap_of (components w)) = (heap, r) ->
  let w2 := set_components (with_heap heap (components w))
              (emit (CallHandler hid MockEvent_new) w) in
  _handle_execute_handler py_repr data w
    = match r with
      | HRaise msg =>
          (Return [("success", RBool false); ("error", RStr msg)], w2)
      | HReturn _ => (Return [("success", RBool true)], w2)
      | HReturnCallable f =>
          match states_after heap cid c with
          | [] => (Return [("success", RBool true)], w2)
          | (first_state_key, current_value) :: _ =>
              let w3 := emit (CallResult first_state_key current_value) w2 in
              match f current_value with
              | Raise msg =>
                  (Return [("success", RBool false); ("error", RStr msg)], w3)
              | Ok new_value =>
                  match update_component py_repr cid
                          (set_components
                             (alter (fun c' => with_states c'
                                       (PyDict.set first_state_key new_value
                                          (states_after heap cid c)))
                                cid (components w3)) w3) with
                  | (Return _, w') => (Return [("success", RBool true)], w')
                  | (Raised msg, w') =>
                      (Return [("success", RBool false); ("error", RStr msg)], w')
                  end
              end
          end
      end.
Proof.
  intros Hhid Hcid Hh Hc Hcall w2.
  unfold _handle_execute_handler, bind, lift, get_world.
  rewrite Hhid, Hcid. cbn. rewrite Hh. cbn. rewrite Hc. cbn.
  unfold run_handler, try_except, bind, call_handler. cbn.
  unfold heap_of in Hcall. rewrite Hcall. fold w2.
  destruct r as [msg|v|f]; cbn; [done|done|].
  rewrite (lookup_with_heap heap _ cid c Hc). cbn.
  destruct (states_after heap cid c) as [|[k v] sts]; cbn; [done|].
  unfold store_states, bind, modify, raise, ret. cbn.
  destruct (f v) as [new_value|msg]; cbn; [|done].
  by destruct (update_component py_repr _ _) as [[[]|msg] w'].
Qed.

Lemma update_effect_not_handler_call (evs : list Effect) :
  Forall (fun ev => is_update_effect ev = true) evs ->
  Forall (fun ev => is_handler_call ev = false) evs.
Proof. intros H. eapply Forall_impl; [exact H|]. by intros []. Qed.

(** C1, as the code has it: for a registered handler id and a mounted
    component, [executeHandler] calls the stored handler once, with the
    synthetic event whose [target] is [None] and whose [preventDefault]
    returns [None].  When the handler returns a callable and the component
    has a state slot, the callable is applied to the current value of the
    first slot, the result is stored under that key and the component is
    then updated, so [{success: True}] follows an update; when the
    callable raises, the result is the failure with its message.  When the
    handler returns a value that is not callable, or the component has no
    state slot, the result is [{success: True}] and no update is
    requested. *)
Theorem execute_handler_calls_and_updates (w : World) (data : RpcData)
    (hid cid : string) (h : Callable) (c : Component) :
  handlerId data = VStr hid ->
  componentId data = VStr cid ->
  _event_handlers (globals w) !! hid = Some h ->
  components w !! cid = Some c ->
  let call := fn_call h MockEvent_new (heap_of (components w)) in
  let sts := states_after (fst call) cid c in
  let out := _handle_execute_handler py_repr data w in
  target MockEvent_new = VNone
  /\ (forall u, preventDefault MockEvent_new u = VNone)
  /\ (exists more,
        trace (snd out) = trace w ++ CallHandler hid MockEvent_new :: more
        /\ Forall (fun ev => is_handler_call ev = false) more)
  /\ (forall f k v rest new_value,
        snd call = HReturnCallable f ->
        sts = (k, v) :: rest ->
        f v = Ok new_value ->
        exists w0,
          components w0 !! cid
            = Some (with_states c (PyDict.set k new_value sts))
          /\ trace w0
              = trace w ++ [CallHandler hid MockEvent_new; CallResult k v]
          /\ out = match update_component py_repr cid w0 with
                   | (Return _, w') => (Return [("success", RBool true)], w')
                   | (Raised msg, w') =>
                       (Return [("success", RBool false); ("error", RStr msg)], w')
                   end
          /\ exists more,
              trace (snd out) = trace w0 ++ UpdateComponent cid :: more)
  /\ (forall f k v rest msg,
        snd call = HReturnCallable f ->
        sts = (k, v) :: rest ->
        f v = Raise msg ->
        fst out = Return [("success", RBool false); ("error", RStr msg)])
  /\ ((exists v, snd call = HReturn v)
       \/ (sts = [] /\ exists f, snd call = HReturnCallable f) ->
      fst out = Return [("success", RBool true)]
      /\ trace (snd out) = trace w ++ [CallHandler hid MockEvent_new]).
Proof.
  intros Hhid Hcid Hh Hc call sts out.
  destruct call as [heap r] eqn:Hcall. subst call. cbn [fst snd] in *.
  pose proof (execute_handler_found w data hid cid h c heap r
                Hhid Hcid Hh Hc Hcall) as Heq.
  cbv zeta in Heq. fold out in Heq. fold sts in Heq.
  split; [done|]. split; [done|]. split; [|split; [|split]].
  - rewrite Heq. destruct r as [msg|v|f]; cbn.
    + exists []. by split.
    + exists []. by split.
    + destruct sts as [|[k v] rest]; cbn; [exists []; by split|].
      destruct (f v) as [new_value|msg]; cbn.
      * match goal with |- context [update_component py_repr cid ?w0] =>
          destruct (update_component_trace w0 cid) as (more & Ht & Hmore);
          destruct (update_component py_repr cid w0) as [[[]|msg] w'] eqn:E
        end; cbn in *; rewrite Ht, <- !app_assoc; cbn;
          (eexists; split; [reflexivity|]);
          (constructor; [done|]); (constructor; [done|]);
          by apply update_effect_not_handler_call.
      * rewrite <- app_assoc. eexists. split; [reflexivity|].
        by repeat constructor.
  - intros f k v rest new_value -> Hsts Hf. rewrite Hsts, Hf in Heq.
    eexists. split; [|split; [|split; [exact Heq|]]].
    + cbn. rewrite lookup_alter_eq, (lookup_with_heap heap _ cid c Hc).
      unfold sts in *. by rewrite Hsts.
    + cbn. by rewrite <- app_assoc.
    + rewrite Heq.
      match goal with |- context [update_component py_repr cid ?w0] =>
        destruct (update_component_trace w0 cid) as (more & Ht & _);
        destruct (update_component py_repr cid w0) as [[[]|msg] w'] eqn:E
      end; cbn in *; eauto.
  - intros f k v rest msg -> Hsts Hf. by rewrite Heq, Hsts, Hf.
  - intros [[v ->]|[Hsts [f ->]]]; rewrite Heq.
    + done.
    + by rewrite Hsts.
Qed.

End Engine.

(** ** Elements *)

Section Elements.

Variable py_repr : pyobj -> string.

Lemma from_dict_fields (tag : string) (props : list (string * pyobj))
    (cs : list pyobj) (key component_id : pyobj) :
  from_dict (PDict [("tag", PStr tag); ("props", PDict props);
                    ("children", PList cs); ("key", key);
                    ("componentId", component_id)])
    = match children_from cs, to_optional key, to_optional component_id with
      | Some children, Some key', Some component_id' =>
          Some (mkElement tag props children key' component_id')
      | _, _, _ => None
      end.
Proof. reflexivity. Qed.

Lemma to_optional_of_optional (o : option string) :
  to_optional (of_optional o) = Some o.
Proof. by destruct o. Qed.

Lemma stringify_serializable (e : Element) :
  serializable e = true -> stringify py_repr e = e.
Proof.
  induction e as [tag props children key cid IH] using Element_children_ind.
  cbn. intros Hs. f_equal.
  induction children as [|child cs IHcs]; [done|].
  cbn in Hs. apply andb_prop in Hs as [Hc Hcs].
  inversion_clear IH as [|? ? Hchild Hrest]. cbn.
  f_equal; [|by apply IHcs].
  destruct child; try done. cbn in *. f_equal. by apply Hchild.
Qed.

Lemma serializable_stringify (e : Element) :
  serializable (stringify py_repr e) = true.
Proof.
  induction e as [tag props children key cid IH] using Element_children_ind.
  cbn. induction children as [|child cs IHcs]; [done|].
  inversion_clear IH as [|? ? Hchild Hrest]. cbn.
  apply andb_true_intro. split; [|by apply IHcs].
  by destruct child.
Qed.

(** C6: re-hydrating [to_dict] of an element gives the element with each
    child that is not an element replaced by its [str]: tag, props, key and
    component id as they were, element children rebuilt recursively.  The
    result is a serializable tree, and a serializable tree comes back as it
    was. *)
Theorem to_dict_from_dict_roundtrip (e : Element) :
  from_dict (to_dict py_repr e) = Some (stringify py_repr e)
  /\ serializable (stringify py_repr e) = true
  /\ (serializable e = true -> from_dict (to_dict py_repr e) = Some e).
Proof.
  assert (Hround : forall e', from_dict (to_dict py_repr e')
                              = Some (stringify py_repr e')).
  { clear e. intros e.
    induction e as [tag props children key cid IH] using Element_children_ind.
    cbn [to_dict stringify]. rewrite from_dict_fields.
    rewrite !to_optional_of_optional.
    assert (children_from (map (child_to_dict py_repr) children)
            = Some (map (stringify_child py_repr) children)) as ->; [|done].
    induction children as [|child cs IHcs]; [done|].
    inversion_clear IH as [|? ? Hchild Hrest].
    specialize (IHcs Hrest). cbn [map].
    destruct child as [| | | | | | | |e']; cbn [child_to_dict stringify_child];
      try (cbn [children_from]; by rewrite IHcs).
    cbn in Hchild.
    destruct e' as [t p c k i]. cbn [to_dict] in *.
    cbn [children_from]. by rewrite Hchild, IHcs. }
  split; [apply Hround|]. split; [apply serializable_stringify|].
  intros Hs. by rewrite Hround, stringify_serializable.
Qed.

Lemma to_html_unfold (e : Element) (g : Globals) :
  to_html py_repr e g
    = let attrs := fst (render_attrs py_repr (props e) g) in
      let g1 := snd (render_attrs py_repr (props e) g) in
      if is_self_closing (tag e) then
        ("<" +:+ tag e +:+ attrs_str attrs +:+ " />", g1)
      else
        ("<" +:+ tag e +:+ attrs_str attrs +:+ ">"
           +:+ join "" (fst (children_html py_repr (children e) g1))
           +:+ "</" +:+ tag e +:+ ">",
         snd (children_html py_repr (children e) g1)).
Proof.
  destruct e as [t p cs k cid]. cbn [to_html tag props children].
  destruct (render_attrs py_repr p g) as [attrs g1]. cbn [fst snd].
  destruct (is_self_closing t); [done|].
  change ((fix children_html (cs : list pyobj) (g0 : Globals) {struct cs} :
             list string * Globals := _) cs g1)
    with (children_html py_repr cs g1).
  by destruct (children_html py_repr cs g1).
Qed.

Lemma children_html_length (cs : list pyobj) (g : Globals) :
  length (fst (children_html py_repr cs g)) = length cs.
Proof.
  revert g. induction cs as [|child cs IH]; intros g; [done|].
  cbn [children_html].
  destruct (child_to_html py_repr child g) as [h g'].
  specialize (IH g'). destruct (children_html py_repr cs g') as [hs g''].
  cbn in *. by rewrite IH.
Qed.

(** C7: [to_html] of an element whose tag is one of [br], [hr], [img],
    [input], [meta], [link] is the opening tag with its attributes closed
    by [ />]: no children segment, no closing tag, and the children are not
    rendered.  For every other tag it is the opening tag, the HTML of the
    children concatenated in order, one part per child, and the closing tag
    of the same tag. *)
Theorem to_html_self_closing_or_closed (e : Element) (g : Globals) :
  let attrs := fst (render_attrs py_repr (props e) g) in
  let g1 := snd (render_attrs py_repr (props e) g) in
  let parts := fst (children_html py_repr (children e) g1) in
  (tag e ∈ ["br"; "hr"; "img"; "input"; "meta"; "link"] ->
     to_html py_repr e g = ("<" +:+ tag e +:+ attrs_str attrs +:+ " />", g1))
  /\ (tag e ∉ ["br"; "hr"; "img"; "input"; "meta"; "link"] ->
     to_html py_repr e g
       = ("<" +:+ tag e +:+ attrs_str attrs +:+ ">" +:+ join "" parts
            +:+ "</" +:+ tag e +:+ ">",
          snd (children_html py_repr (children e) g1)))
  /\ length parts = length (children e).
Proof.
  intros attrs g1 parts. rewrite to_html_unfold. cbv zeta.
  fold attrs g1 parts. unfold is_self_closing, self_closing_tags.
  split; [|split].
  - intros Hin. by rewrite bool_decide_true.
  - intros Hin. by rewrite bool_decide_false.
  - apply children_html_length.
Qed.

(** *** Registrations during an emission *)

Lemma extends_refl (g : Globals) : extends g g.
Proof. by split. Qed.

Lemma extends_trans (g1 g2 g3 : Globals) :
  extends g1 g2 -> extends g2 g3 -> extends g1 g3.
Proof.
  intros [Hc12 Hk12] [Hc23 Hk23]. split; [lia|].
  intros n Hn. rewrite Hk23 by lia. by apply Hk12.
Qed.

Lemma register_extends (f : Callable) (g : Globals) :
  extends g (snd (register_event_handler f g)).
Proof.
  split; cbn; [lia|]. intros n Hn.
  apply lookup_insert_ne. intros Heq%handler_name_inj. lia.
Qed.

Lemma render_attr_extends (k : string) (v : pyobj) (g : Globals) :
  extends g (snd (render_attr py_repr k v g)).
Proof.
  unfold render_attr.
  repeat case_match; subst; try apply extends_refl.
  match goal with H : register_event_handler ?f g = _ |- _ =>
    pose proof (register_extends f g) as Hext; by rewrite H in Hext
  end.
Qed.

Lemma render_attrs_extends (ps : list (string * pyobj)) (g : Globals) :
  extends g (snd (render_attrs py_repr ps g)).
Proof.
  revert g. induction ps as [|[k v] ps IH]; intros g; [apply extends_refl|].
  cbn [render_attrs].
  pose proof (render_attr_extends k v g) as H1.
  destruct (render_attr py_repr k v g) as [a g1].
  pose proof (IH g1) as H2.
  destruct (render_attrs py_repr ps g1) as [attrs g2].
  by apply extends_trans with g1.
Qed.

Lemma to_html_extends (e : Element) (g : Globals) :
  extends g (snd (to_html py_repr e g)).
Proof.
  revert g.
  induction e as [t p cs k cid IH] using Element_children_ind. intros g.
  rewrite to_html_unfold. cbn [tag props children]. cbv zeta.
  pose proof (render_attrs_extends p g) as H1.
  destruct (is_self_closing t); [done|]. cbn [snd].
  apply extends_trans with (snd (render_attrs py_repr p g)); [done|].
  generalize (snd (render_attrs py_repr p g)). clear H1.
  induction cs as [|child cs IHcs]; intros g1; [apply extends_refl|].
  inversion_clear IH as [|? ? Hchild Hrest]. cbn [children_html].
  assert (H1 : extends g1 (snd (child_to_html py_repr child g1))).
  { destruct child; try apply extends_refl. apply Hchild. }
  destruct (child_to_html py_repr child g1) as [h g'].
  pose proof (IHcs Hrest g') as H2.
  destruct (children_html py_repr cs g') as [hs g''].
  by apply extends_trans with g'.
Qed.

Lemma render_attrs_length (ps : list (string * pyobj)) (g : Globals) :
  length (fst (render_attrs py_repr ps g)) = length ps.
Proof.
  revert g. induction ps as [|[k v] ps IH]; intros g; [done|].
  cbn [render_attrs].
  destruct (render_attr py_repr k v g) as [a g1].
  specialize (IH g1). destruct (render_attrs py_repr ps g1) as [attrs g2].
  cbn in *. by rewrite IH.
Qed.

(** The attribute of the [i]-th prop is the one [render_attr] makes for it,
    on the globals the props before it left. *)
Lemma render_attrs_lookup (ps : list (string * pyobj)) (g : Globals)
    (i : nat) (k : string) (v : pyobj) :
  ps !! i = Some (k, v) ->
  exists gi,
    extends g gi
    /\ fst (render_attrs py_repr ps g) !! i
        = Some (fst (render_attr py_repr k v gi))
    /\ extends (snd (render_attr py_repr k v gi))
               (snd (render_attrs py_repr ps g)).
Proof.
  revert g i. induction ps as [|[k0 v0] ps IH]; intros g i Hi; [done|].
  cbn [render_attrs]. destruct i as [|i].
  - cbn in Hi. inversion Hi; subst. exists g.
    pose proof (render_attrs_extends ps (snd (render_attr py_repr k v g))) as H2.
    destruct (render_attr py_repr k v g) as [a g1]. cbn [snd] in H2.
    destruct (render_attrs py_repr ps g1) as [attrs g2].
    split; [apply extends_refl|]. by split.
  - cbn in Hi.
    pose proof (render_attr_extends k0 v0 g) as H1.
    destruct (render_attr py_repr k0 v0 g) as [a g1].
    destruct (IH g1 i Hi) as (gi & Hgi & Hl & He).
    destruct (render_attrs py_repr ps g1) as [attrs g2].
    exists gi. split; [by apply extends_trans with g1|]. by split.
Qed.

Lemma children_html_extends (cs : list pyobj) (g : Globals) :
  extends g (snd (children_html py_repr cs g)).
Proof.
  revert g. induction cs as [|child cs IH]; intros g; [apply extends_refl|].
  cbn [children_html].
  assert (H1 : extends g (snd (child_to_html py_repr child g))).
  { destruct child; try apply extends_refl. apply to_html_extends. }
  destruct (child_to_html py_repr child g) as [h g'].
  pose proof (IH g') as H2.
  destruct (children_html py_repr cs g') as [hs g''].
  by apply extends_trans with g'.
Qed.

Lemma to_html_extends_attrs (e : Element) (g : Globals) :
  extends (snd (render_attrs py_repr (props e) g)) (snd (to_html py_repr e g)).
Proof.
  rewrite to_html_unfold. cbv zeta.
  destruct (is_self_closing (tag e)); [apply extends_refl|].
  apply children_html_extends.
Qed.

Lemma append_assoc (s1 s2 s3 : string) :
  (s1 +:+ s2) +:+ s3 = s1 +:+ s2 +:+ s3.
Proof.
  induction s1 as [|c s1 IH]; [done|].
  change (String c ((s1 +:+ s2) +:+ s3) = String c (s1 +:+ s2 +:+ s3)).
  by rewrite IH.
Qed.

Lemma startswith_head (c : ascii) (p key : string) :
  startswith (String c p) key = true -> exists key', key = String c key'.
Proof.
  unfold startswith. destruct key as [|c' key']; cbn; [done|].
  destruct (ascii_dec c c') as [->|]; [eauto|done].
Qed.

Lemma startswith_head_ne (c c' : ascii) (p s : string) :
  c <> c' -> startswith (String c p) (String c' s) = false.
Proof. intros Hne. unfold startswith. cbn. by destruct (ascii_dec c c'). Qed.

(** C8: a prop of an element whose key starts with [on_] gives one
    attribute of the opening tag, at the position of the prop.  For a
    function value it is [data-handler="<id>"], where the id was made from
    a counter value of this emission and the registry maps it to that
    function when the emission ends; for a string it is
    [data-action="<string>"] (for any other value, with its [str]).  The
    attribute does not start with the key, nor with the key with hyphens
    for underscores, and the props give as many attributes as there are
    props. *)
Theorem to_html_event_attribute (e : Element) (g : Globals) (i : nat)
    (key : string) (value : pyobj) :
  props e !! i = Some (key, value) ->
  startswith "on_" key = true ->
  let attrs := fst (render_attrs py_repr (props e) g) in
  let g_end := snd (to_html py_repr e g) in
  length attrs = length (props e)
  /\ (exists rest,
        fst (to_html py_repr e g)
          = "<" +:+ tag e +:+ " " +:+ join " " attrs +:+ rest)
  /\ exists attr,
      attrs !! i = Some attr
      /\ startswith key attr = false
      /\ startswith (replace "_" "-" key) attr = false
      /\ match value with
         | PCallable f =>
             exists n,
               _handler_counter g <= n < _handler_counter g_end
               /\ attr = "data-handler=" +:+ dq +:+ handler_name n +:+ dq
               /\ _event_handlers g_end !! handler_name n = Some f
         | PStr s => attr = "data-action=" +:+ dq +:+ s +:+ dq
         | _ => attr = "data-action=" +:+ dq +:+ py_str py_repr value +:+ dq
         end.
Proof.
  intros Hi Hon attrs g_end.
  destruct (render_attrs_lookup (props e) g i key value Hi)
    as (gi & Hgi & Hattr & Hext).
  fold attrs in Hattr.
  pose proof (to_html_extends_attrs e g) as Hend. fold g_end in Hend.
  pose proof (extends_trans _ _ _ Hext Hend) as Hkeep.
  split; [apply render_attrs_length|]. split.
  - rewrite to_html_unfold. cbv zeta. fold attrs.
    assert (attrs_str attrs = " " +:+ join " " attrs) as ->.
    { destruct attrs; [done|reflexivity]. }
    destruct (is_self_closing (tag e)); cbn [fst];
      rewrite !append_assoc; eauto.
  - destruct (startswith_head _ _ _ Hon) as [key' ->].
    eexists. split; [exact Hattr|].
    unfold render_attr in *. rewrite Hon in *.
    destruct value as [| | |s| | |f| |];
      cbn [fst snd register_event_handler] in *;
      try (split; [by apply startswith_head_ne|];
           split; [by apply startswith_head_ne|]; reflexivity).
    split; [by apply startswith_head_ne|].
    split; [by apply startswith_head_ne|].
    exists (_handler_counter gi). destruct Hgi as [Hc _].
    destruct Hkeep as [Hc' Hk]. cbn in Hc', Hk.
    split; [lia|]. split; [reflexivity|].
    rewrite Hk by lia. apply lookup_insert_eq.
Qed.

(** *** The builder *)

Lemma call_loop_later (args : list pyobj) (i : nat)
    (ps : list (string * pyobj)) (cs : list pyobj) :
  call_loop py_repr (S i) args ps cs
    = (ps, cs ++ concat (map (child_items py_repr) args)).
Proof.
  revert i cs. induction args as [|arg args IH]; intros i cs.
  - cbn. by rewrite app_nil_r.
  - cbn [call_loop map concat].
    assert (call_step py_repr (S i) arg ps cs
            = (ps, cs ++ child_items py_repr arg)) as ->.
    { destruct arg; cbn; by rewrite ?app_nil_r. }
    by rewrite IH, app_assoc.
Qed.

Lemma call_loop_first (args : list pyobj) :
  call_loop py_repr 0 args [] []
    = (positional_props args,
       concat (map (child_items py_repr) (child_args args))).
Proof.
  destruct args as [|arg args]; [done|].
  cbn [call_loop].
  destruct arg; cbn [call_step positional_props child_args];
    by rewrite call_loop_later.
Qed.

Lemma get_not_in_keys {V} (k : string) (d : list (string * V)) :
  k ∉ PyDict.keys d -> PyDict.get k d = None.
Proof.
  induction d as [|[k' v'] d IH]; [done|]. cbn. intros Hin.
  apply not_elem_of_cons in Hin as [Hne Hin].
  rewrite decide_False by done. by apply IH.
Qed.

(** After [d.update(other)] a key of [other] has the value [other] gives
    it, and every other key has the value it had in [d]. *)
Lemma get_update {V} (k : string) (d other : list (string * V)) :
  PyDict.wf other ->
  PyDict.get k (PyDict.update d other)
    = match PyDict.get k other with
      | Some v => Some v
      | None => PyDict.get k d
      end.
Proof.
  unfold PyDict.wf, PyDict.update. revert d.
  induction other as [|[k' v'] other IH]; intros d Hwf; [done|].
  cbn in Hwf. apply NoDup_cons in Hwf as [Hfresh Hwf].
  cbn [fold_left fst snd PyDict.get]. rewrite IH by done.
  destruct (decide (k' = k)) as [->|Hne].
  - by rewrite (get_not_in_keys k other Hfresh), get_set_eq.
  - by rewrite get_set_ne.
Qed.

(** C9, as the code has it: a first positional argument that is a mapping
    is the attributes mapping, every other positional argument is a child
    argument.  The children are, in order, for each child argument: the
    element itself, the items of a list, nothing for [None], the [str] of
    any other value.  The keyword arguments are merged into the attributes:
    a key they have gets their value, any other key keeps the value of the
    positional mapping. *)
Theorem HTMLElement_call_contract (self : HTMLElement) (args : list pyobj)
    (kwargs : list (string * pyobj)) :
  PyDict.wf kwargs ->
  let e := HTMLElement_call py_repr self args kwargs in
  tag e = he_tag self
  /\ children e = concat (map (child_items py_repr) (child_args args))
  /\ props e = PyDict.update (positional_props args) kwargs
  /\ (forall k v, PyDict.get k kwargs = Some v -> PyDict.get k (props e) = Some v)
  /\ (forall k, PyDict.get k kwargs = None ->
        PyDict.get k (props e) = PyDict.get k (positional_props args))
  /\ key e = None
  /\ component_id e = None.
Proof.
  intros Hwf e. subst e. unfold HTMLElement_call.
  rewrite call_loop_first. cbn [tag children props key component_id].
  repeat split.
  - intros k v Hk. by rewrite get_update, Hk.
  - intros k Hk. by rewrite get_update, Hk.
Qed.

End Elements.

(** * The properties on the concrete scenarios *)

Lemma update_state_unknown_component_witness :
  _handle_update_state repr_opaque
      (mkRpcData (VStr "c9") (VStr "count") (VInt 6) VNone VNone) example_world
    = (Return [("success", RBool false);
               ("error", RStr "Component or state not found")], example_world)
  /\ _handle_update_state repr_opaque
      (mkRpcData (VDict []) (VStr "count") (VInt 6) VNone VNone) example_world
    = (Raised "unhashable type: 'dict'", example_world).
Proof.
  split.
  - apply (proj1 (update_state_unknown_component repr_opaque example_world
             (mkRpcData (VStr "c9") (VStr "count") (VInt 6) VNone VNone))).
    reflexivity.
  - apply (proj1 (proj2 (update_state_unknown_component repr_opaque
             example_world
             (mkRpcData (VDict []) (VStr "count") (VInt 6) VNone VNone)))).
    reflexivity.
Defined.

(** C2 as stated fails: the list [[]] is the id of no component of the
    registry, and [updateState] with it raises where the claim has the
    not-found result. *)
Lemma update_state_unhashable_component_raises :
  let data := mkRpcData (VList []) (VStr "count") (VInt 6) VNone VNone in
  let out := _handle_update_state repr_opaque data example_world in
  (forall cid c, components example_world !! cid = Some c ->
     componentId data <> VStr cid)
  /\ out = (Raised "unhashable type: 'list'", example_world)
  /\ fst out <> Return [("success", RBool false);
                        ("error", RStr "Component or state not found")].
Proof.
  cbv zeta. split; [done|]. split; [reflexivity|].
  assert (Hout : fst (_handle_update_state repr_opaque
                        (mkRpcData (VList []) (VStr "count") (VInt 6) VNone VNone)
                        example_world)
                 = Raised "unhashable type: 'list'") by reflexivity.
  rewrite Hout. discriminate.
Qed.


Lemma dispatch_action_invokes_first_reducer_witness :
  let out := _handle_dispatch_action repr_opaque
               (mkRpcData (VStr "c1") VNone VNone (VInt 2) VNone)
               example_world in
  (exists more,
      trace (snd out) = CallReducer "reducer_0" (VInt 5) (VInt 2) :: more
      /\ Forall (fun ev => is_reducer_call ev = false) more)
  /\ exists w0,
      components w0 !! "c1" = Some (with_states counter [("count", VInt 7)])
      /\ trace w0 = [CallReducer "reducer_0" (VInt 5) (VInt 2)]
      /\ out = match update_component repr_opaque "c1" w0 with
               | (Return _, w') => (Return [("success", RBool true)], w')
               | (Raised msg, w') =>
                   (Return [("success", RBool false); ("error", RStr msg)], w')
               end.
Proof.
  cbv zeta.
  destruct (dispatch_action_invokes_first_reducer repr_opaque example_world
              (mkRpcData (VStr "c1") VNone VNone (VInt 2) VNone) "c1" counter
              "reducer_0" add_reducer ("reducer_1", failing_reducer) []
              eq_refl eq_refl eq_refl) as (Hlog & Hok & _).
  split; [exact Hlog|].
  destruct (Hok (VInt 7) eq_refl) as (w0 & Hc & _ & Ht & Hout & _).
  exists w0. split; [exact Hc|]. split; [exact Ht|exact Hout].
Defined.

Lemma dispatch_action_failures_witness :
  (exists w',
      _handle_dispatch_action repr_opaque
          (mkRpcData (VStr "c1") VNone VNone (VInt 2) VNone) failing_world
        = (Return [("success", RBool false); ("error", RStr "boom")], w'))
  /\ _handle_dispatch_action repr_opaque
        (mkRpcData (VStr "c9") VNone VNone (VInt 2) VNone) failing_world
      = (Return [("success", RBool false);
                 ("error", RStr "Component or reducer not found")],
         failing_world)
  /\ _handle_dispatch_action repr_opaque
        (mkRpcData (VDict []) VNone VNone (VInt 2) VNone) failing_world
      = (Raised "unhashable type: 'dict'", failing_world).
Proof.
  split; [|split].
  - exact (proj1 (proj2 (dispatch_action_failures repr_opaque failing_world
                           (mkRpcData (VStr "c1") VNone VNone (VInt 2) VNone)))
             "c1" failing_counter "reducer_0" failing_reducer
             [("reducer_1", add_reducer)] "boom"
             eq_refl eq_refl eq_refl eq_refl).
  - exact (proj1 (proj2 (proj2 (dispatch_action_failures repr_opaque
                                  failing_world
                                  (mkRpcData (VStr "c9") VNone VNone (VInt 2) VNone))))
             eq_refl).
  - exact (proj1 (proj2 (proj2 (proj2 (proj2
             (dispatch_action_failures repr_opaque failing_world
                (mkRpcData (VDict []) VNone VNone (VInt 2) VNone))))))
             _ eq_refl).
Defined.

(** C5 as stated fails: the list [[]] is the id of no component of the
    registry, and [dispatchAction] with it raises where the claim has the
    not-found failure result. *)
Lemma dispatch_action_unhashable_component_raises :
  let data := mkRpcData (VList []) VNone VNone (VInt 2) VNone in
  let out := _handle_dispatch_action repr_opaque data example_world in
  (forall cid c, components example_world !! cid = Some c ->
     componentId data <> VStr cid)
  /\ out = (Raised "unhashable type: 'list'", example_world)
  /\ (forall response, fst out <> Return response).
Proof.
  cbv zeta. split; [done|]. split; [reflexivity|].
  assert (Hout : fst (_handle_dispatch_action repr_opaque
                        (mkRpcData (VList []) VNone VNone (VInt 2) VNone)
                        example_world)
                 = Raised "unhashable type: 'list'") by reflexivity.
  rewrite Hout. discriminate.
Qed.

Lemma execute_handler_calls_and_updates_witness :
  exists w0,
    components w0 !! "c1" = Some (with_states counter [("count", VInt 6)])
    /\ trace w0 = [CallHandler "handler_1" MockEvent_new;
                   CallResult "count" (VInt 5)]
    /\ exists more,
        trace (snd (_handle_execute_handler repr_opaque
                      (mkRpcData (VStr "c1") VNone VNone VNone (VStr "handler_1"))
                      example_world))
          = trace w0 ++ UpdateComponent "c1" :: more.
Proof.
  destruct (proj1 (proj2 (proj2 (proj2
              (execute_handler_calls_and_updates repr_opaque example_world
                 (mkRpcData (VStr "c1") VNone VNone VNone (VStr "handler_1"))
                 "handler_1" "c1" increment_handler counter
                 eq_refl eq_refl eq_refl eq_refl))))
              _ "count" (VInt 5) [] (VInt 6) eq_refl eq_refl eq_refl)
    as (w0 & Hc & Ht & _ & Hmore).
  exists w0. split; [exact Hc|]. split; [exact Ht|exact Hmore].
Defined.

(** C1 as stated fails: [handler_0] returns [None]; the call on the mounted
    component [c1] returns [{success: True}] and the log holds the call of
    the handler alone, no update. *)
Lemma execute_handler_success_without_update :
  let out := _handle_execute_handler repr_opaque
               (mkRpcData (VStr "c1") VNone VNone VNone (VStr "handler_0"))
               example_world in
  _event_handlers (globals example_world) !! "handler_0" = Some noop_handler
  /\ components example_world !! "c1" = Some counter
  /\ fst out = Return [("success", RBool true)]
  /\ trace (snd out) = [CallHandler "handler_0" MockEvent_new]
  /\ UpdateComponent "c1" ∉ trace (snd out).
Proof.
  cbv zeta.
  assert (Ht : trace (snd (_handle_execute_handler repr_opaque
                 (mkRpcData (VStr "c1") VNone VNone VNone (VStr "handler_0"))
                 example_world))
               = [CallHandler "handler_0" MockEvent_new]) by reflexivity.
  split; [reflexivity|]. split; [reflexivity|]. split; [reflexivity|].
  split; [exact Ht|]. rewrite Ht. intros Hin.
  apply list_elem_of_singleton in Hin. discriminate Hin.
Qed.

Lemma to_dict_from_dict_roundtrip_witness :
  from_dict (to_dict repr_opaque div_a) = Some div_a.
Proof.
  exact (proj2 (proj2 (to_dict_from_dict_roundtrip repr_opaque div_a)) eq_refl).
Defined.

Lemma to_html_self_closing_or_closed_witness :
  fst (to_html repr_opaque img_with_child initial_globals)
    = "<img src=" +:+ dq +:+ "a.png" +:+ dq +:+ " />"
  /\ fst (to_html repr_opaque div_a initial_globals)
    = "<div class=" +:+ dq +:+ "a" +:+ dq +:+ "><span>hi</span></div>".
Proof.
  split.
  - rewrite (proj1 (to_html_self_closing_or_closed repr_opaque img_with_child
                      initial_globals)); [reflexivity|].
    apply (bool_decide_unpack _). reflexivity.
  - rewrite (proj1 (proj2 (to_html_self_closing_or_closed repr_opaque div_a
                             initial_globals))); [reflexivity|].
    apply (bool_decide_unpack _). reflexivity.
Defined.

Lemma to_html_event_attribute_witness :
  exists attr n,
    fst (render_attrs repr_opaque (props button) example_globals) !! 0
      = Some attr
    /\ attr = "data-handler=" +:+ dq +:+ handler_name n +:+ dq
    /\ _event_handlers (snd (to_html repr_opaque button example_globals))
         !! handler_name n = Some increment_handler.
Proof.
  destruct (to_html_event_attribute repr_opaque button example_globals 0
              "on_click" (PCallable increment_handler) eq_refl eq_refl)
    as (_ & _ & attr & Ha & _ & _ & n & _ & Hn & Hr).
  exists attr, n. split; [exact Ha|]. split; [exact Hn|exact Hr].
Defined.

Lemma HTMLElement_call_contract_witness :
  let e := HTMLElement_call repr_opaque (HTMLBuilder_getattr "div")
             [PDict [("class_", PStr "a"); ("id", PStr "x")];
              PElement span_hi; PList [PInt 1; PStr "t"]; PNone; PInt 7]
             [("class_", PStr "b")] in
  children e = [PElement span_hi; PInt 1; PStr "t"; PStr "7"]
  /\ PyDict.get "class_" (props e) = Some (PStr "b")
  /\ PyDict.get "id" (props e) = Some (PStr "x").
Proof.
  cbv zeta.
  destruct (HTMLElement_call_contract repr_opaque (HTMLBuilder_getattr "div")
              [PDict [("class_", PStr "a"); ("id", PStr "x")];
               PElement span_hi; PList [PInt 1; PStr "t"]; PNone; PInt 7]
              [("class_", PStr "b")])
    as (_ & Hc & _ & Hkw & Hpos & _).
  - apply (bool_decide_unpack _). reflexivity.
  - split; [rewrite Hc; reflexivity|].
    split; [apply Hkw; reflexivity|].
    rewrite Hpos; reflexivity.
Defined.

(** C9 as stated fails: [html.div("a", None)] has the one child ["a"]; by
    the stated rule, which stringifies every argument that is neither an
    element nor a sequence, the children would be ["a"] and ["None"]. *)
Lemma HTMLElement_call_skips_None :
  let args := [PStr "a"; PNone] in
  children (HTMLElement_call repr_opaque (HTMLBuilder_getattr "div") args [])
    = [PStr "a"]
  /\ concat (map (claimed_child_items repr_opaque) (child_args args))
    = [PStr "a"; PStr "None"]
  /\ children (HTMLElement_call repr_opaque (HTMLBuilder_getattr "div") args [])
    <> concat (map (claimed_child_items repr_opaque) (child_args args)).
Proof. cbv zeta. split; [reflexivity|]. split; [reflexivity|discriminate]. Qed.

(** * Further properties *)

(** ** What the RPC handlers keep *)

Section Keeps.

Variable py_repr : pyobj -> string.

Lemma same_registries_refl (w : World) : same_registries w w.
Proof. by repeat split. Qed.

Lemma same_registries_trans (w1 w2 w3 : World) :
  same_registries w1 w2 -> same_registries w2 w3 -> same_registries w1 w3.
Proof.
  intros (Hd1 & Hg1 & Hr1 & Hs1) (Hd2 & Hg2 & Hr2 & Hs2).
  repeat split; congruence.
Qed.

Lemma keeps_ret {A} (a : A) : keeps (ret a).
Proof. intros w. apply same_registries_refl. Qed.

Lemma keeps_raise {A} (msg : string) : keeps (raise (A:=A) msg).
Proof. intros w. apply same_registries_refl. Qed.

Lemma keeps_get_world : keeps get_world.
Proof. intros w. apply same_registries_refl. Qed.

Lemma keeps_lift {A} (r : result A) : keeps (lift r).
Proof. intros w. destruct r; apply same_registries_refl. Qed.

Lemma keeps_bind {A B} (m : M A) (k : A -> M B) :
  keeps m -> (forall a, keeps (k a)) -> keeps (bind m k).
Proof.
  intros Hm Hk w. unfold bind. specialize (Hm w).
  destruct (m w) as [[a|msg] w']; cbn in *; [|done].
  apply same_registries_trans with w'; [done|apply Hk].
Qed.

Lemma keeps_try_except {A} (m : M A) (h : string -> M A) :
  keeps m -> (forall msg, keeps (h msg)) -> keeps (try_except m h).
Proof.
  intros Hm Hh w. unfold try_except. specialize (Hm w).
  destruct (m w) as [[a|msg] w']; cbn in *; [done|].
  apply same_registries_trans with w'; [done|apply Hh].
Qed.

Lemma keeps_emit (ev : Effect) : keeps (modify (emit ev)).
Proof. intros w. by repeat split. Qed.

Lemma keeps_store_states (cid : string) (s : list (string * value)) :
  keeps (store_states cid s).
Proof. intros w. repeat split. cbn. apply dom_alter_L. Qed.

Lemma keeps_update_component (cid : string) :
  keeps (update_component py_repr cid).
Proof.
  intros w. unfold update_component, bind, get_world, modify, ret, raise. cbn.
  destruct (components w !! cid) as [c|] eqn:Hc; cbn; [|by repeat split].
  assert (Hdom : dom (<[cid := with_hook_context c (render c (hook_context c)).1]>
                        (components w)) = dom (components w)).
  { rewrite dom_insert_L. apply subseteq_union_1_L, singleton_subseteq_l.
    by apply (elem_of_dom_2 (D:=gset string)) in Hc. }
  destruct (render c (hook_context c)) as [hc [el|msg]]; cbn in *;
    [destruct (_websocket_manager w); cbn|]; by repeat split.
Qed.

Lemma dom_with_heap (heap : Heap) (cs : gmap string Component) :
  dom (with_heap heap cs) = dom cs.
Proof.
  apply set_eq. intros cid. rewrite !elem_of_dom. unfold with_heap.
  rewrite map_lookup_imap. destruct (cs !! cid); cbn; [|done].
  split; eauto.
Qed.

Lemma keeps_call_handler (hid : string) (h : Callable) :
  keeps (call_handler hid h).
Proof.
  intros w. unfold call_handler. cbn.
  destruct (fn_call h MockEvent_new _) as [heap r].
  assert (same_registries w
            (set_components (with_heap heap (components w))
               (emit (CallHandler hid MockEvent_new) w))).
  { repeat split. cbn. apply dom_with_heap. }
  by destruct r.
Qed.

Lemma keeps_update_state (data : RpcData) :
  keeps (_handle_update_state py_repr data).
Proof.
  unfold _handle_update_state.
  apply keeps_bind; [apply keeps_get_world|]. intros w0.
  apply keeps_bind; [apply keeps_lift|]. intros [[cid c]|]; [|apply keeps_ret].
  apply keeps_bind; [apply keeps_lift|]. intros [k|]; [|apply keeps_ret].
  case_match; [|apply keeps_ret].
  apply keeps_bind; [apply keeps_store_states|]. intros _.
  apply keeps_bind; [apply keeps_update_component|]. intros _.
  apply keeps_ret.
Qed.

Lemma keeps_for_each {X R} (body : X -> M (option R)) (l : list X) :
  (forall x, keeps (body x)) -> keeps (for_each body l).
Proof.
  intros Hbody. induction l as [|x l IH]; [apply keeps_ret|].
  cbn [for_each]. apply keeps_bind; [apply Hbody|].
  intros [v|]; [apply keeps_ret|apply IH].
Qed.

Lemma keeps_dispatch_action (data : RpcData) :
  keeps (_handle_dispatch_action py_repr data).
Proof.
  unfold _handle_dispatch_action.
  apply keeps_bind; [apply keeps_get_world|]. intros w0.
  apply keeps_bind; [apply keeps_lift|]. intros [[cid c]|]; [|apply keeps_ret].
  apply keeps_bind; [|intros [r|]; apply keeps_ret].
  apply keeps_for_each. intros entry. unfold dispatch_body.
  apply keeps_bind; [apply keeps_get_world|]. intros w1.
  apply keeps_try_except; [|intros msg; apply keeps_ret].
  apply keeps_bind; [apply keeps_emit|]. intros _.
  destruct (reducer _ _ _); [|apply keeps_raise].
  apply keeps_bind; [apply keeps_store_states|]. intros _.
  apply keeps_bind; [apply keeps_update_component|]. intros _.
  apply keeps_ret.
Qed.

Lemma keeps_get_initial_state (data : RpcData) :
  keeps (_handle_get_initial_state data).
Proof.
  unfold _handle_get_initial_state.
  apply keeps_bind; [apply keeps_get_world|]. intros w0.
  apply keeps_bind; [apply keeps_lift|]. intros [[cid c]|]; apply keeps_ret.
Qed.

Lemma keeps_execute_handler (data : RpcData) :
  keeps (_handle_execute_handler py_repr data).
Proof.
  unfold _handle_execute_handler.
  apply keeps_bind; [apply keeps_get_world|]. intros w0.
  apply keeps_bind; [apply keeps_lift|]. intros [hid|]; [|apply keeps_ret].
  destruct (_event_handlers (globals w0) !! hid) as [h|]; [|apply keeps_ret].
  apply keeps_bind; [apply keeps_lift|]. intros [[cid c]|]; [|apply keeps_ret].
  unfold run_handler.
  apply keeps_try_except; [|intros msg; apply keeps_ret].
  apply keeps_bind; [apply keeps_call_handler|]. intros r.
  apply keeps_bind; [|intros _; apply keeps_ret].
  destruct r as [msg|v|f]; try apply keeps_ret.
  apply keeps_bind; [apply keeps_get_world|]. intros w1.
  repeat case_match; try apply keeps_ret;
    (apply keeps_bind; [apply keeps_emit|]; intros _);
    repeat case_match;
    first [ apply keeps_raise
          | apply keeps_bind; [apply keeps_store_states|]; intros _;
            apply keeps_update_component ].
Qed.

(** X1: a call of the [/rpc] route, whatever the method and the parameters,
    and whether it returns or lets an exception out, leaves the set of
    mounted component ids, the handler registry with its counter, the root
    and the live channel as they were: no RPC mounts or unmounts a
    component or registers or removes a handler. *)
Theorem rpc_handler_keeps_registries (method : option string)
    (params : option RpcData) (w : World) :
  same_registries w (snd (rpc_handler py_repr method params w)).
Proof.
  revert w. fold (keeps (rpc_handler py_repr method params)).
  unfold rpc_handler. destruct method as [name|]; [|apply keeps_ret].
  destruct (PyDict.get name (rpc_handlers py_repr)) as [handler|] eqn:Hget;
    [|apply keeps_ret].
  apply keeps_bind; [|intros r; apply keeps_ret].
  unfold rpc_handlers in Hget. cbn in Hget.
  repeat case_decide; simplify_eq;
    auto using keeps_update_state, keeps_dispatch_action,
      keeps_get_initial_state, keeps_execute_handler.
Qed.

End Keeps.

(** ** Edge and error paths of the RPC handlers *)

Section EngineEdges.

Variable py_repr : pyobj -> string.

#[local] Arguments update_component : simpl never.

(** [update_component] for a mounted component whose render pass raises. *)
Lemma update_component_raised (w : World) (cid : string) (c : Component)
    (hc : HookContext) (msg : string) :
  components w !! cid = Some c ->
  render c (hook_context c) = (hc, Raise msg) ->
  update_component py_repr cid w =
    (Raised msg,
     set_components (<[cid := with_hook_context c hc]> (components w))
       (emit (Render cid) (emit (UpdateComponent cid) w))).
Proof.
  intros Hc Hr. unfold update_component, bind, get_world, modify, raise. cbn.
  by rewrite Hc, Hr.
Qed.

(** X2: [updateState] for a mounted component.  With a state key that is
    a string its state map does not have, or that is [None], a boolean or a
    number (no state key at all among them), it returns the not-found
    result and leaves the world as it was: the call never adds a key to a
    state map.  With a state key that cannot be hashed (a list or an
    object) the membership test on the state map raises [TypeError]; the
    handler lets it out, returns no result, and the world is as it was. *)
Theorem update_state_unknown_key (w : World) (data : RpcData) (cid : string)
    (c : Component) :
  componentId data = VStr cid ->
  components w !! cid = Some c ->
  let out := _handle_update_state py_repr data w in
  let not_found :=
    (Return [("success", RBool false);
             ("error", RStr "Component or state not found")], w) in
  (forall k, stateKey data = VStr k ->
     PyDict.get k (states (hook_context c)) = None -> out = not_found)
  /\ (hashed (stateKey data) = Ok None -> out = not_found)
  /\ (forall msg, hashed (stateKey data) = Raise msg -> out = (Raised msg, w))
  /\ (forall msg,
        hashed (stateKey data) = Raise msg
        <-> (exists l, stateKey data = VList l
                       /\ msg = "unhashable type: 'list'")
            \/ (exists d, stateKey data = VDict d
                          /\ msg = "unhashable type: 'dict'")).
Proof.
  intros Hid Hc out not_found. subst out not_found.
  unfold _handle_update_state, bind, lift, get_world, ret.
  rewrite Hid, find_component_str, Hc.
  split; [|split; [|split]].
  - intros k -> Hk. cbn. unfold PyDict.contains. by rewrite Hk.
  - by intros ->.
  - by intros msg ->.
  - intros msg. apply hashed_raise.
Qed.

(** X3: when the render pass of the component raises, [updateState] lets
    the exception out instead of returning a result; the new value was
    stored before the pass, which ran on it, the registry holds the hook
    context the pass left, and nothing is broadcast. *)
Theorem update_state_render_raises (w : World) (cid k : string)
    (c : Component) (v a hid : value)
    (hc' : HookContext) (msg : string) :
  components w !! cid = Some c ->
  PyDict.contains k (states (hook_context c)) = true ->
  render c (mkHookContext (PyDict.set k v (states (hook_context c)))
              (reducers (hook_context c))) = (hc', Raise msg) ->
  exists w',
    _handle_update_state py_repr (mkRpcData (VStr cid) (VStr k) v a hid) w
      = (Raised msg, w')
    /\ components w' !! cid = Some (with_hook_context c hc')
    /\ trace w' = trace w ++ [UpdateComponent cid; Render cid].
Proof.
  intros Hc Hk Hr.
  rewrite (update_state_found py_repr w cid k c v a hid Hc Hk).
  set (w1 := set_components _ w).
  assert (Hc1 : components w1 !! cid
                = Some (with_states c (PyDict.set k v (states (hook_context c))))).
  { subst w1. cbn. by rewrite lookup_alter_eq, Hc. }
  rewrite (update_component_raised w1 cid _ hc' msg Hc1 Hr).
  eexists. split; [reflexivity|]. split.
  - cbn. by rewrite lookup_insert_eq.
  - cbn. by rewrite <- app_assoc.
Qed.

(** X4: when the render pass raises after a reducer returned, the exception
    is caught: [dispatchAction] returns [{success: False, error: <message>}],
    and the state the reducer returned stays stored (no rollback): the pass
    ran on it and the registry holds the hook context the pass left. *)
Theorem dispatch_action_render_raises (w : World) (data : RpcData)
    (cid : string) (c : Component) (rk : string) (info : ReducerInfo)
    (rest : list (string * ReducerInfo)) (new_state : value)
    (hc' : HookContext) (msg : string) :
  componentId data = VStr cid ->
  components w !! cid = Some c ->
  reducers (hook_context c) = (rk, info) :: rest ->
  reducer info
    (default VNone (PyDict.get (state_key info) (states (hook_context c))))
    (action data) = Ok new_state ->
  render c (mkHookContext
              (PyDict.set (state_key info) new_state (states (hook_context c)))
              (reducers (hook_context c))) = (hc', Raise msg) ->
  exists w',
    _handle_dispatch_action py_repr data w
      = (Return [("success", RBool false); ("error", RStr msg)], w')
    /\ components w' !! cid = Some (with_hook_context c hc').
Proof.
  intros Hid Hc Hrs Hred Hr.
  rewrite (dispatch_action_first py_repr w data cid c rk info rest Hid Hc Hrs).
  cbv zeta. rewrite Hred.
  match goal with |- context [update_component py_repr cid ?w0] =>
    set (w1 := w0)
  end.
  assert (Hc1 : components w1 !! cid
                = Some (with_states c
                          (PyDict.set (state_key info) new_state
                             (states (hook_context c))))).
  { subst w1. cbn. by rewrite lookup_alter_eq, Hc. }
  rewrite (update_component_raised w1 cid _ hc' msg Hc1 Hr).
  eexists. split; [reflexivity|]. cbn. by rewrite lookup_insert_eq.
Qed.

Lemma set_absent {V} (k : string) (v : V) (d : list (string * V)) :
  PyDict.get k d = None -> PyDict.set k v d = d ++ [(k, v)].
Proof.
  induction d as [|[k' v'] d IH]; cbn; [done|].
  destruct (decide (k' = k)); [done|]. intros Hd. by rewrite IH.
Qed.

(** X5: [dispatchAction] on a component whose first reducer returns and
    whose render pass returns an element and leaves the state map: the
    result is [{success: True}] and [getInitialState] then returns the
    state map with the reducer's state key set to the value the reducer
    returned.  A state key the map did not have is added at its end. *)
Theorem dispatch_action_then_get_initial_state (w : World) (data : RpcData)
    (cid : string) (c : Component) (rk : string) (info : ReducerInfo)
    (rest : list (string * ReducerInfo)) (new_state : value)
    (hc' : HookContext) (e : Element) :
  let states' :=
    PyDict.set (state_key info) new_state (states (hook_context c)) in
  componentId data = VStr cid ->
  components w !! cid = Some c ->
  reducers (hook_context c) = (rk, info) :: rest ->
  reducer info
    (default VNone (PyDict.get (state_key info) (states (hook_context c))))
    (action data) = Ok new_state ->
  render c (mkHookContext states' (reducers (hook_context c))) = (hc', Ok e) ->
  states hc' = states' ->
  exists w',
    _handle_dispatch_action py_repr data w
      = (Return [("success", RBool true)], w')
    /\ _handle_get_initial_state data w'
      = (Return [("success", RBool true); ("state", RStates states')], w')
    /\ PyDict.get (state_key info) states' = Some new_state
    /\ (PyDict.get (state_key info) (states (hook_context c)) = None ->
        states' = states (hook_context c) ++ [(state_key info, new_state)]).
Proof.
  intros states' Hid Hc Hrs Hred Hr Hkept.
  rewrite (dispatch_action_first py_repr w data cid c rk info rest Hid Hc Hrs).
  cbv zeta. rewrite Hred. fold states'.
  match goal with |- context [update_component py_repr cid ?w0] =>
    set (w1 := w0)
  end.
  assert (Hc1 : components w1 !! cid = Some (with_states c states')).
  { subst w1. cbn. by rewrite lookup_alter_eq, Hc. }
  rewrite (update_component_rendered py_repr w1 cid _ hc' e Hc1 Hr).
  eexists. split; [reflexivity|]. split; [|split].
  - cbv zeta. unfold _handle_get_initial_state, bind, lift, get_world, ret.
    rewrite Hid, find_component_str.
    destruct (_websocket_manager w1);
      cbn [components emit set_components];
      rewrite lookup_insert_eq; cbn; by rewrite Hkept.
  - apply get_set_eq.
  - apply set_absent.
Qed.

(** X6: [executeHandler] returns the not-found result and leaves the
    world as it was, no handler called, in three cases: the handler id is
    [None], a boolean or a number (the key absent among them); it is a
    string that is not registered, whatever the component id, which the
    test then does not look at; it is registered and the component id can
    be hashed and is not mounted.  A handler id that cannot be hashed (a
    list or an object), and for a registered handler a component id that
    cannot be hashed, makes the membership test raise [TypeError]: the
    handler lets it out, returns no result, and the world is as it was. *)
Theorem execute_handler_not_found (w : World) (data : RpcData) :
  let out := _handle_execute_handler py_repr data w in
  let not_found :=
    (Return [("success", RBool false);
             ("error", RStr "Handler or component not found")], w) in
  (hashed (handlerId data) = Ok None -> out = not_found)
  /\ (forall hid,
        handlerId data = VStr hid ->
        _event_handlers (globals w) !! hid = None -> out = not_found)
  /\ (forall hid h,
        handlerId data = VStr hid ->
        _event_handlers (globals w) !! hid = Some h ->
        find_component (componentId data) w = Ok None -> out = not_found)
  /\ (forall msg,
        hashed (handlerId data) = Raise msg -> out = (Raised msg, w))
  /\ (forall hid h msg,
        handlerId data = VStr hid ->
        _event_handlers (globals w) !! hid = Some h ->
        hashed (componentId data) = Raise msg -> out = (Raised msg, w))
  /\ (forall key msg,
        hashed key = Raise msg
        <-> (exists l, key = VList l /\ msg = "unhashable type: 'list'")
            \/ (exists d, key = VDict d /\ msg = "unhashable type: 'dict'")).
Proof.
  cbv zeta. unfold _handle_execute_handler, bind, lift, get_world, ret.
  split; [|split; [|split; [|split; [|split]]]].
  - by intros ->.
  - intros hid -> Hh. cbn. by rewrite Hh.
  - intros hid h -> Hh Hnone. cbn. by rewrite Hh, Hnone.
  - by intros msg ->.
  - intros hid h msg -> Hh Hraise.
    apply find_component_raise with (w := w) in Hraise.
    cbn. by rewrite Hh, Hraise.
  - intros key msg. apply hashed_raise.
Qed.

(** X7: when the handler raises, [executeHandler] returns
    [{success: False, error: <message>}]; what the handler wrote to the
    state maps before raising stays written, in every mounted component;
    the log gets the call alone, so no update is requested. *)
Theorem execute_handler_handler_raises (w : World) (data : RpcData)
    (hid cid : string) (h : Callable) (c : Component) (heap : Heap)
    (msg : string) :
  handlerId data = VStr hid ->
  componentId data = VStr cid ->
  _event_handlers (globals w) !! hid = Some h ->
  components w !! cid = Some c ->
  fn_call h MockEvent_new (heap_of (components w)) = (heap, HRaise msg) ->
  let out := _handle_execute_handler py_repr data w in
  fst out = Return [("success", RBool false); ("error", RStr msg)]
  /\ trace (snd out) = trace w ++ [CallHandler hid MockEvent_new]
  /\ forall cid' c',
      components w !! cid' = Some c' ->
      components (snd out) !! cid'
        = Some (with_states c' (states_after heap cid' c')).
Proof.
  intros Hhid Hcid Hh Hc Hcall out. subst out.
  rewrite (execute_handler_found py_repr w data hid cid h c heap _
             Hhid Hcid Hh Hc Hcall).
  cbn. split; [done|]. split; [done|].
  intros cid' c' Hc'. by apply lookup_with_heap.
Qed.

(** X8: a method name that is not one of [update_state],
    [dispatch_action], [get_initial_state], [execute_handler] gets
    [{"error": "Unknown method: <name>"}] from the [/rpc] route and no
    frame at all from the live channel; the world is as it was in both
    cases. *)
Theorem rpc_handler_unknown_method (name : string) (params : option RpcData)
    (message_id : value) (w : World) :
  name ∉ ["update_state"; "dispatch_action"; "get_initial_state";
          "execute_handler"] ->
  rpc_handler py_repr (Some name) params w
    = (Return (RpcError ("Unknown method: " +:+ name)), w)
  /\ websocket_message py_repr message_id (Some name) params w
    = (Return None, w).
Proof.
  intros Hname.
  assert (PyDict.get name (rpc_handlers py_repr) = None) as Hget.
  { unfold rpc_handlers. cbn.
    repeat case_decide; try done; subst; exfalso; apply Hname;
      set_solver. }
  unfold rpc_handler, websocket_message. by rewrite Hget.
Qed.

(** X9: [register_component] returns the id of the component; afterwards
    the registry maps that id to the component, replacing what was mounted
    under it, every other id is mapped as before, and [getInitialState] for
    the id returns the state map of the component. *)
Theorem register_component_mounts (c : Component) (w : World) :
  let out := register_component c w in
  fst out = Return (id c)
  /\ components (snd out) !! id c = Some c
  /\ (forall cid, cid <> id c ->
        components (snd out) !! cid = components w !! cid)
  /\ _handle_get_initial_state
        (mkRpcData (VStr (id c)) VNone VNone VNone VNone) (snd out)
      = (Return [("success", RBool true);
                 ("state", RStates (states (hook_context c)))], snd out).
Proof.
  cbv zeta. unfold register_component, bind, modify, ret. cbn.
  split; [done|]. split; [apply lookup_insert_eq|]. split.
  - intros cid Hne. by apply lookup_insert_ne.
  - unfold _handle_get_initial_state, bind, lift, get_world, ret. cbn.
    by rewrite lookup_insert_eq.
Qed.

(** X10: [set_root_component] mounts the component and makes it the root;
    a component mounted before under another id, the former root among
    them, stays mounted.  When the render pass of the new root returns an
    element, [render_to_dict] right after returns [to_dict] of that
    element. *)
Theorem set_root_component_then_render_to_dict (c : Component) (w : World)
    (hc : HookContext) (e : Element) :
  render c (hook_context c) = (hc, Ok e) ->
  let w1 := snd (set_root_component c w) in
  root_component w1 = Some (id c)
  /\ components w1 !! id c = Some c
  /\ (forall cid, cid <> id c -> components w1 !! cid = components w !! cid)
  /\ fst (render_to_dict py_repr w1) = Return (to_dict py_repr e).
Proof.
  intros Hr. cbv zeta.
  unfold set_root_component, register_component, bind, modify, ret. cbn.
  split; [done|]. split; [apply lookup_insert_eq|]. split.
  - intros cid Hne. by apply lookup_insert_ne.
  - unfold render_to_dict, bind, get_world, modify, ret. cbn.
    rewrite lookup_insert_eq. by rewrite Hr.
Qed.

End EngineEdges.

Lemma update_state_unknown_key_witness :
  _handle_update_state repr_opaque
      (mkRpcData (VStr "c1") (VStr "total") (VInt 6) VNone VNone) example_world
    = (Return [("success", RBool false);
               ("error", RStr "Component or state not found")], example_world)
  /\ _handle_update_state repr_opaque
      (mkRpcData (VStr "c1") (VList [VStr "count"]) (VInt 6) VNone VNone)
      example_world
    = (Raised "unhashable type: 'list'", example_world).
Proof.
  split.
  - exact (proj1 (update_state_unknown_key repr_opaque example_world
                    (mkRpcData (VStr "c1") (VStr "total") (VInt 6) VNone VNone)
                    "c1" counter eq_refl eq_refl)
             "total" eq_refl eq_refl).
  - exact (proj1 (proj2 (proj2
             (update_state_unknown_key repr_opaque example_world
                (mkRpcData (VStr "c1") (VList [VStr "count"]) (VInt 6)
                   VNone VNone)
                "c1" counter eq_refl eq_refl)))
             _ eq_refl).
Defined.

Lemma update_state_render_raises_witness :
  exists w',
    _handle_update_state repr_opaque
        (mkRpcData (VStr "c1") (VStr "count") (VInt 6) VNone VNone) broken_world
      = (Raised "render failed", w')
    /\ components w' !! "c1"
        = Some (with_states broken_counter [("count", VInt 6)]).
Proof.
  destruct (update_state_render_raises repr_opaque broken_world "c1" "count"
              broken_counter (VInt 6) VNone VNone
              (mkHookContext [("count", VInt 6)] [("reducer_0", add_reducer)])
              "render failed" eq_refl eq_refl eq_refl) as (w' & H1 & H2 & _).
  exists w'. split; [exact H1|exact H2].
Defined.

Lemma dispatch_action_render_raises_witness :
  exists w',
    _handle_dispatch_action repr_opaque
        (mkRpcData (VStr "c1") VNone VNone (VInt 2) VNone) broken_world
      = (Return [("success", RBool false); ("error", RStr "render failed")], w')
    /\ components w' !! "c1"
        = Some (with_states broken_counter [("count", VInt 7)]).
Proof.
  exact (dispatch_action_render_raises repr_opaque broken_world
           (mkRpcData (VStr "c1") VNone VNone (VInt 2) VNone) "c1" broken_counter
           "reducer_0" add_reducer [] (VInt 7)
           (mkHookContext [("count", VInt 7)] [("reducer_0", add_reducer)])
           "render failed" eq_refl eq_refl eq_refl eq_refl eq_refl).
Defined.

Lemma dispatch_action_then_get_initial_state_witness :
  exists w',
    _handle_dispatch_action repr_opaque
        (mkRpcData (VStr "c1") VNone VNone (VInt 2) VNone) example_world
      = (Return [("success", RBool true)], w')
    /\ _handle_get_initial_state
        (mkRpcData (VStr "c1") VNone VNone (VInt 2) VNone) w'
      = (Return [("success", RBool true);
                 ("state", RStates [("count", VInt 7)])], w').
Proof.
  destruct (dispatch_action_then_get_initial_state repr_opaque example_world
              (mkRpcData (VStr "c1") VNone VNone (VInt 2) VNone) "c1" counter
              "reducer_0" add_reducer [("reducer_1", failing_reducer)] (VInt 7)
              (mkHookContext [("count", VInt 7)] (reducers (hook_context counter)))
              (mkElement "div" [] [PStr "counter"] None None)
              eq_refl eq_refl eq_refl eq_refl eq_refl eq_refl)
    as (w' & H1 & H2 & _).
  exists w'. split; [exact H1|exact H2].
Defined.

Lemma execute_handler_not_found_witness :
  _handle_execute_handler repr_opaque
      (mkRpcData (VStr "c1") VNone VNone VNone (VStr "handler_7")) example_world
    = (Return [("success", RBool false);
               ("error", RStr "Handler or component not found")], example_world)
  /\ _handle_execute_handler repr_opaque
      (mkRpcData (VList []) VNone VNone VNone (VStr "handler_7")) example_world
    = (Return [("success", RBool false);
               ("error", RStr "Handler or component not found")], example_world)
  /\ _handle_execute_handler repr_opaque
      (mkRpcData (VStr "c9") VNone VNone VNone (VStr "handler_0")) example_world
    = (Return [("success", RBool false);
               ("error", RStr "Handler or component not found")], example_world)
  /\ _handle_execute_handler repr_opaque
      (mkRpcData (VList []) VNone VNone VNone (VStr "handler_0")) example_world
    = (Raised "unhashable type: 'list'", example_world)
  /\ _handle_execute_handler repr_opaque
      (mkRpcData (VStr "c1") VNone VNone VNone (VDict [])) example_world
    = (Raised "unhashable type: 'dict'", example_world).
Proof.
  split; [|split; [|split; [|split]]].
  - exact (proj1 (proj2 (execute_handler_not_found repr_opaque example_world
             (mkRpcData (VStr "c1") VNone VNone VNone (VStr "handler_7"))))
             "handler_7" eq_refl eq_refl).
  - exact (proj1 (proj2 (execute_handler_not_found repr_opaque example_world
             (mkRpcData (VList []) VNone VNone VNone (VStr "handler_7"))))
             "handler_7" eq_refl eq_refl).
  - exact (proj1 (proj2 (proj2
             (execute_handler_not_found repr_opaque example_world
                (mkRpcData (VStr "c9") VNone VNone VNone (VStr "handler_0")))))
             "handler_0" noop_handler eq_refl eq_refl eq_refl).
  - exact (proj1 (proj2 (proj2 (proj2 (proj2
             (execute_handler_not_found repr_opaque example_world
                (mkRpcData (VList []) VNone VNone VNone (VStr "handler_0")))))))
             "handler_0" noop_handler _ eq_refl eq_refl eq_refl).
  - exact (proj1 (proj2 (proj2 (proj2
             (execute_handler_not_found repr_opaque example_world
                (mkRpcData (VStr "c1") VNone VNone VNone (VDict []))))))
             _ eq_refl).
Defined.

Lemma execute_handler_handler_raises_witness :
  let out := _handle_execute_handler repr_opaque
               (mkRpcData (VStr "c1") VNone VNone VNone (VStr "handler_0"))
               raising_world in
  fst out = Return [("success", RBool false); ("error", RStr "handler failed")]
  /\ components (snd out) !! "c1"
      = Some (with_states counter [("count", VInt 99)]).
Proof.
  cbv zeta.
  destruct (execute_handler_handler_raises repr_opaque raising_world
              (mkRpcData (VStr "c1") VNone VNone VNone (VStr "handler_0"))
              "handler_0" "c1" raising_handler counter
              (<["c1" := [("count", VInt 99)]]> (heap_of (components raising_world)))
              "handler failed" eq_refl eq_refl eq_refl eq_refl eq_refl)
    as (H1 & _ & H3).
  split; [exact H1|]. exact (H3 "c1" counter eq_refl).
Defined.

Lemma rpc_handler_unknown_method_witness :
  rpc_handler repr_opaque (Some "updateState") None example_world
    = (Return (RpcError "Unknown method: updateState"), example_world)
  /\ websocket_message repr_opaque (VInt 1) (Some "updateState") None
        example_world
    = (Return None, example_world).
Proof.
  apply (rpc_handler_unknown_method repr_opaque "updateState" None (VInt 1)
           example_world).
  apply (bool_decide_unpack _). reflexivity.
Defined.

Lemma set_root_component_then_render_to_dict_witness :
  let w1 := snd (set_root_component counter empty_world) in
  root_component w1 = Some "c1"
  /\ fst (render_to_dict repr_opaque w1)
      = Return (to_dict repr_opaque (mkElement "div" [] [PStr "counter"] None None)).
Proof.
  cbv zeta.
  destruct (set_root_component_then_render_to_dict repr_opaque counter
              empty_world (hook_context counter)
              (mkElement "div" [] [PStr "counter"] None None) eq_refl)
    as (H1 & _ & _ & H4).
  split; [exact H1|exact H4].
Defined.

(** ** Emission, registrations and serialization *)

Section Emission.

Variable py_repr : pyobj -> string.

Lemma register_all_app (hs1 hs2 : list Callable) (g : Globals) :
  snd (register_all (hs1 ++ hs2) g)
    = snd (register_all hs2 (snd (register_all hs1 g))).
Proof.
  revert g. induction hs1 as [|h hs1 IH]; intros g; [done|].
  cbn [app register_all].
  destruct (register_event_handler h g) as [hid g1].
  specialize (IH g1).
  destruct (register_all (hs1 ++ hs2) g1) as [ids g2].
  destruct (register_all hs1 g1) as [ids1 g3]. cbn in *.
  rewrite IH. by destruct (register_all hs2 g3).
Qed.

Lemma render_attr_registers (k : string) (v : pyobj) (g : Globals) :
  snd (render_attr py_repr k v g)
    = snd (register_all (prop_handlers [(k, v)]) g).
Proof.
  unfold render_attr, prop_handlers. cbn [flat_map fst snd].
  destruct (startswith "on_" k); destruct v; rewrite ?app_nil_r;
    cbn [register_all register_event_handler snd]; repeat case_match; done.
Qed.

Lemma render_attrs_registers (ps : list (string * pyobj)) (g : Globals) :
  snd (render_attrs py_repr ps g) = snd (register_all (prop_handlers ps) g).
Proof.
  revert g. induction ps as [|[k v] ps IH]; intros g; [done|].
  cbn [render_attrs].
  assert (prop_handlers ((k, v) :: ps)
          = prop_handlers [(k, v)] ++ prop_handlers ps) as ->.
  { unfold prop_handlers. cbn [flat_map]. by rewrite app_nil_r. }
  rewrite register_all_app, <- render_attr_registers.
  destruct (render_attr py_repr k v g) as [a g1].
  specialize (IH g1). destruct (render_attrs py_repr ps g1) as [attrs g2].
  cbn in *. by rewrite IH.
Qed.

Lemma to_html_registers (e : Element) (g : Globals) :
  snd (to_html py_repr e g) = snd (register_all (event_handlers_of e) g).
Proof.
  revert g.
  induction e as [t p cs k cid IH] using Element_children_ind. intros g.
  rewrite to_html_unfold. cbn [tag props children event_handlers_of].
  cbv zeta. rewrite register_all_app, <- render_attrs_registers.
  destruct (is_self_closing t); [done|]. cbn [snd].
  generalize (snd (render_attrs py_repr p g)).
  induction cs as [|child cs IHcs]; intros g1; [done|].
  inversion_clear IH as [|? ? Hchild Hrest].
  cbn [children_html flat_map]. rewrite register_all_app.
  assert (H1 : snd (child_to_html py_repr child g1)
               = snd (register_all (child_handlers child) g1)).
  { destruct child; try done. apply Hchild. }
  destruct (child_to_html py_repr child g1) as [h g']. cbn [snd] in H1.
  rewrite <- H1. specialize (IHcs Hrest g').
  destruct (children_html py_repr cs g') as [hs g'']. by cbn in *.
Qed.

(** X11: the registrations of one emission are those of the tree: after
    [to_html] the globals are what registering, one by one and in document
    order, the functions bound to the [on_] props of the element and of the
    elements below it gives; below a self-closing tag nothing is registered.
    The counter grows by the number of those functions, and an element with
    none leaves the globals as they were. *)
Theorem to_html_registers_event_handlers (e : Element) (g : Globals) :
  snd (to_html py_repr e g) = snd (register_all (event_handlers_of e) g)
  /\ _handler_counter (snd (to_html py_repr e g))
     = _handler_counter g + length (event_handlers_of e)
  /\ (event_handlers_of e = [] -> snd (to_html py_repr e g) = g).
Proof.
  rewrite to_html_registers. split; [done|]. split.
  - apply register_all_spec.
  - by intros ->.
Qed.

(** X12: every emission registers anew.  Emitting the same element twice
    leaves the counter two times the number of its event functions higher,
    and an id the first emission made from a counter value still maps to
    the same function after the second: the registry grows with every
    render and nothing is reused or released. *)
Theorem to_html_twice_registers_twice (e : Element) (g : Globals) :
  let g1 := snd (to_html py_repr e g) in
  let g2 := snd (to_html py_repr e g1) in
  _handler_counter g2 = _handler_counter g + 2 * length (event_handlers_of e)
  /\ forall n, n < _handler_counter g1 ->
       _event_handlers g2 !! handler_name n
         = _event_handlers g1 !! handler_name n.
Proof.
  cbv zeta. split.
  - rewrite !to_html_registers.
    rewrite !(proj1 (proj2 (register_all_spec _ _))). lia.
  - apply (to_html_extends py_repr e (snd (to_html py_repr e g))).
Qed.

Lemma render_attr_counter (k : string) (v : pyobj) (g g' : Globals) :
  _handler_counter g = _handler_counter g' ->
  fst (render_attr py_repr k v g) = fst (render_attr py_repr k v g')
  /\ _handler_counter (snd (render_attr py_repr k v g))
     = _handler_counter (snd (render_attr py_repr k v g')).
Proof.
  intros Hc. unfold render_attr.
  destruct (startswith "on_" k); destruct v;
    cbn [register_event_handler fst snd _handler_counter];
    repeat case_match; rewrite ?Hc; done.
Qed.

Lemma render_attrs_counter (ps : list (string * pyobj)) (g g' : Globals) :
  _handler_counter g = _handler_counter g' ->
  fst (render_attrs py_repr ps g) = fst (render_attrs py_repr ps g')
  /\ _handler_counter (snd (render_attrs py_repr ps g))
     = _handler_counter (snd (render_attrs py_repr ps g')).
Proof.
  revert g g'. induction ps as [|[k v] ps IH]; intros g g' Hc; [done|].
  cbn [render_attrs].
  destruct (render_attr_counter k v g g' Hc) as [Ha Hc1].
  destruct (render_attr py_repr k v g) as [a g1].
  destruct (render_attr py_repr k v g') as [a' g1'].
  cbn [fst snd] in Ha, Hc1. destruct (IH g1 g1' Hc1) as [Has Hc2].
  destruct (render_attrs py_repr ps g1) as [attrs g2].
  destruct (render_attrs py_repr ps g1') as [attrs' g2'].
  cbn in *. by subst.
Qed.

(** X13: the HTML of an element depends on the globals through the counter
    alone: from two globals with the same counter, whatever their
    registries hold, [to_html] gives the same text and the same counter
    afterwards. *)
Theorem to_html_depends_on_counter (e : Element) (g g' : Globals) :
  _handler_counter g = _handler_counter g' ->
  fst (to_html py_repr e g) = fst (to_html py_repr e g')
  /\ _handler_counter (snd (to_html py_repr e g))
     = _handler_counter (snd (to_html py_repr e g')).
Proof.
  revert g g'.
  induction e as [t p cs k cid IH] using Element_children_ind.
  intros g g' Hc. rewrite !to_html_unfold. cbn [tag props children]. cbv zeta.
  destruct (render_attrs_counter p g g' Hc) as [Ha Hc1]. rewrite Ha.
  destruct (is_self_closing t); [done|]. cbn [fst snd].
  revert Hc1.
  generalize (snd (render_attrs py_repr p g)) (snd (render_attrs py_repr p g')).
  clear Ha Hc.
  assert (Hcs : forall g1 g1', _handler_counter g1 = _handler_counter g1' ->
            fst (children_html py_repr cs g1) = fst (children_html py_repr cs g1')
            /\ _handler_counter (snd (children_html py_repr cs g1))
               = _handler_counter (snd (children_html py_repr cs g1'))).
  { induction cs as [|child cs IHcs]; intros g1 g1' Hc1; [done|].
    inversion_clear IH as [|? ? Hchild Hrest]. cbn [children_html].
    assert (H1 : fst (child_to_html py_repr child g1)
                 = fst (child_to_html py_repr child g1')
                 /\ _handler_counter (snd (child_to_html py_repr child g1))
                    = _handler_counter (snd (child_to_html py_repr child g1'))).
    { destruct child; try done. by apply Hchild. }
    destruct H1 as [Hh Hc2].
    destruct (child_to_html py_repr child g1) as [h g2].
    destruct (child_to_html py_repr child g1') as [h' g2'].
    cbn [fst snd] in Hh, Hc2. destruct (IHcs Hrest g2 g2' Hc2) as [Hhs Hc3].
    destruct (children_html py_repr cs g2) as [hs g3].
    destruct (children_html py_repr cs g2') as [hs' g3'].
    cbn in *. by subst. }
  intros g1 g1' Hc1. destruct (Hcs g1 g1' Hc1) as [Hp Hc2].
  by rewrite Hp.
Qed.

Lemma from_dict_to_dict (e : Element) :
  from_dict (to_dict py_repr e) = Some (stringify py_repr e).
Proof.
  induction e as [t p cs k cid IH] using Element_children_ind.
  cbn [to_dict stringify]. rewrite from_dict_fields.
  rewrite !to_optional_of_optional.
  assert (children_from (map (child_to_dict py_repr) cs)
          = Some (map (stringify_child py_repr) cs)) as ->; [|done].
  induction cs as [|child cs IHcs]; [done|].
  inversion_clear IH as [|? ? Hchild Hrest].
  specialize (IHcs Hrest). cbn [map].
  destruct child as [| | | | | | | |e']; cbn [child_to_dict stringify_child];
    try (cbn [children_from]; by rewrite IHcs).
  cbn in Hchild. destruct e' as [t' p' c' k' i']. cbn [to_dict] in *.
  cbn [children_from]. by rewrite Hchild, IHcs.
Qed.

Lemma stringify_to_html (e : Element) (g : Globals) :
  to_html py_repr (stringify py_repr e) g = to_html py_repr e g.
Proof.
  revert g.
  induction e as [t p cs k cid IH] using Element_children_ind. intros g.
  rewrite !to_html_unfold. cbn [stringify tag props children]. cbv zeta.
  destruct (is_self_closing t); [done|].
  assert (Hcs : forall g1,
            children_html py_repr (map (stringify_child py_repr) cs) g1
            = children_html py_repr cs g1) by
    (induction cs as [|child cs IHcs]; intros g1; [done|];
     inversion_clear IH as [|? ? Hchild Hrest]; cbn [map children_html];
     assert (child_to_html py_repr (stringify_child py_repr child) g1
             = child_to_html py_repr child g1) as ->
       by (destruct child as [| [] | | | | | | |e']; try done; apply Hchild);
     destruct (child_to_html py_repr child g1) as [h g2];
     by rewrite IHcs).
  by rewrite Hcs.
Qed.

(** X14: serialization keeps the HTML.  The element that re-hydration makes
    of [to_dict e] emits the same text as [e] and registers the same
    handlers, from any globals: replacing a child by its [str], raw HTML
    included, does not change what [to_html] writes for it. *)
Theorem roundtrip_keeps_html (e : Element) (g : Globals) :
  exists e',
    from_dict (to_dict py_repr e) = Some e'
    /\ to_html py_repr e' g = to_html py_repr e g.
Proof.
  exists (stringify py_repr e). split;
    [apply from_dict_to_dict|apply stringify_to_html].
Qed.

End Emission.

(** ** Text children and the builder *)

Section Builder.

Variable py_repr : pyobj -> string.

Lemma children_html_text (wrap : string -> pyobj) (ss : list string)
    (g : Globals) :
  (forall s' g', child_to_html py_repr (wrap s') g' = (s', g')) ->
  children_html py_repr (map wrap ss) g = (ss, g).
Proof.
  intros Hwrap. induction ss as [|s' ss IH]; [done|].
  cbn [map children_html]. by rewrite Hwrap, IH.
Qed.

(** X15: text children are written verbatim.  An element whose children
    are strings emits, between its opening and its closing tag, exactly the
    strings, joined, with no escaping; wrapping the strings as raw HTML
    gives the same text and the same globals. *)
Theorem to_html_text_verbatim (t : string) (ps : list (string * pyobj))
    (ss : list string) (k cid : option string) (g : Globals) :
  to_html py_repr (mkElement t ps (map PStr ss) k cid) g
    = to_html py_repr (mkElement t ps (map PRawHTML ss) k cid) g
  /\ (t ∉ self_closing_tags ->
      fst (to_html py_repr (mkElement t ps (map PStr ss) k cid) g)
        = "<" +:+ t +:+ attrs_str (fst (render_attrs py_repr ps g)) +:+ ">"
            +:+ join "" ss +:+ "</" +:+ t +:+ ">").
Proof.
  rewrite !to_html_unfold. cbn [tag props children]. cbv zeta.
  rewrite (children_html_text PStr), (children_html_text PRawHTML) by done.
  split; [done|]. intros Ht. unfold is_self_closing.
  by rewrite bool_decide_false.
Qed.

Lemma child_items_serializable (arg : pyobj) :
  match arg with
  | PElement e => serializable e
  | PList l => forallb serializable_child l
  | _ => true
  end = true ->
  forallb serializable_child (child_items py_repr arg) = true.
Proof. destruct arg; cbn; rewrite ?andb_true_r; done. Qed.

(** X16: a builder call whose element arguments are serializable, and
    whose list arguments hold serializable elements and strings, makes a
    serializable element: the call has already replaced every other child
    argument by its [str].  Re-hydrating [to_dict] of the result gives the
    result back. *)
Theorem HTMLElement_call_roundtrip (self : HTMLElement) (args : list pyobj)
    (kwargs : list (string * pyobj)) :
  args_serializable args = true ->
  let e := HTMLElement_call py_repr self args kwargs in
  serializable e = true /\ from_dict (to_dict py_repr e) = Some e.
Proof.
  intros Hargs e.
  assert (Hs : serializable e = true).
  { subst e. unfold HTMLElement_call. rewrite call_loop_first.
    cbn [serializable]. unfold args_serializable in Hargs.
    induction (child_args args) as [|arg rest IH]; [done|].
    cbn [map concat forallb] in *.
    apply andb_prop in Hargs as [Harg Hrest].
    rewrite forallb_app, (child_items_serializable arg Harg). by apply IH. }
  split; [done|].
  by rewrite from_dict_to_dict, stringify_serializable.
Qed.

Lemma concat_child_items_elements (es : list Element) :
  concat (map (child_items py_repr) (map PElement es)) = map PElement es.
Proof. induction es as [|e es IH]; [done|]. cbn. by rewrite IH. Qed.

(** X17: the fluent syntax and [create_element] agree: a builder call with
    a props mapping first, then elements, and no keyword argument, is
    [create_element] with that tag, mapping and elements; a call with no
    argument at all is [create_element] with the defaults. *)
Theorem HTMLElement_call_create_element (t : string)
    (ps : list (string * pyobj)) (es : list Element) :
  HTMLElement_call py_repr (HTMLBuilder_getattr t)
      (PDict ps :: map PElement es) []
    = create_element t (Some ps) (Some (map PElement es))
  /\ HTMLElement_call py_repr (HTMLBuilder_getattr t) [] []
    = create_element t None None.
Proof.
  unfold HTMLElement_call. rewrite !call_loop_first.
  cbn [positional_props child_args]. rewrite concat_child_items_elements.
  done.
Qed.

Lemma keys_set_present {V} (k : string) (v : V) (d : list (string * V)) :
  k ∈ PyDict.keys d -> PyDict.keys (PyDict.set k v d) = PyDict.keys d.
Proof.
  induction d as [|[k' v'] d IH]; cbn; [by intros ?%elem_of_nil|].
  intros Hin. destruct (decide (k' = k)) as [->|Hne]; [done|]. cbn.
  apply elem_of_cons in Hin as [->|Hin]; [done|]. f_equal. by apply IH.
Qed.

Lemma keys_set_absent {V} (k : string) (v : V) (d : list (string * V)) :
  k ∉ PyDict.keys d -> PyDict.keys (PyDict.set k v d) = PyDict.keys d ++ [k].
Proof.
  intros Hin. rewrite set_absent by by apply get_not_in_keys.
  unfold PyDict.keys. by rewrite map_app.
Qed.

Lemma filter_agree (P Q : string -> Prop) `{forall x, Decision (P x)}
    `{forall x, Decision (Q x)} (l : list string) :
  (forall x, x ∈ l -> P x <-> Q x) -> filter P l = filter Q l.
Proof.
  induction l as [|x l IH]; [done|]. intros Hagree.
  rewrite !filter_cons.
  rewrite IH by (intros y Hy; apply Hagree; by right).
  pose proof (Hagree x (list_elem_of_here _ _)).
  repeat case_decide; tauto.
Qed.

(** The keys after [d.update(other)]: those of [d] in their order, then the
    keys of [other] that [d] did not have, in the order of [other]. *)
Lemma keys_update {V} (d other : list (string * V)) :
  PyDict.wf other ->
  PyDict.keys (PyDict.update d other)
    = PyDict.keys d
      ++ filter (fun k => k ∉ PyDict.keys d) (PyDict.keys other).
Proof.
  unfold PyDict.wf, PyDict.update. revert d.
  induction other as [|[k v] other IH]; intros d Hwf.
  - cbn. by rewrite app_nil_r.
  - cbn in Hwf. apply NoDup_cons in Hwf as [Hfresh Hwf].
    cbn [fold_left fst snd]. rewrite IH by done.
    change (PyDict.keys ((k, v) :: other)) with (k :: PyDict.keys other).
    rewrite filter_cons. destruct (decide (k ∈ PyDict.keys d)) as [Hin|Hin].
    + rewrite keys_set_present by done. by rewrite decide_False by tauto.
    + rewrite keys_set_absent by done. rewrite decide_True by done.
      rewrite <- app_assoc. cbn. do 2 f_equal.
      apply filter_agree. intros x Hx. rewrite elem_of_app, list_elem_of_singleton.
      split; [tauto|]. intros Hd [?| ->]; [tauto|]. by apply Hfresh.
Qed.

(** X18: the attributes of a builder call keep the order of the positional
    mapping: the keys of the props are those of the positional mapping in
    their order, a key the keyword arguments override staying in place,
    followed by the keyword keys that are new, in the order given.  No key
    occurs twice when none does in the positional mapping. *)
Theorem HTMLElement_call_props_order (self : HTMLElement) (args : list pyobj)
    (kwargs : list (string * pyobj)) :
  PyDict.wf kwargs ->
  let e := HTMLElement_call py_repr self args kwargs in
  PyDict.keys (props e)
    = PyDict.keys (positional_props args)
      ++ filter (fun k => k ∉ PyDict.keys (positional_props args))
           (PyDict.keys kwargs)
  /\ (PyDict.wf (positional_props args) -> PyDict.wf (props e)).
Proof.
  intros Hwf e. subst e. unfold HTMLElement_call. rewrite call_loop_first.
  cbn [props]. split; [by apply keys_update|].
  unfold PyDict.wf in *. intros Hpos. rewrite keys_update by done.
  apply NoDup_app. split; [done|]. split.
  - intros x Hx Hf. by apply list_elem_of_filter in Hf as [Hf _].
  - by apply NoDup_filter.
Qed.

End Builder.

Lemma to_html_depends_on_counter_witness :
  fst (to_html repr_opaque button example_globals)
    = fst (to_html repr_opaque button (mkGlobals ∅ 2)).
Proof.
  exact (proj1 (to_html_depends_on_counter repr_opaque button example_globals
                  (mkGlobals ∅ 2) eq_refl)).
Defined.

Lemma HTMLElement_call_roundtrip_witness :
  let e := HTMLElement_call repr_opaque (HTMLBuilder_getattr "p")
             [PDict [("id", PStr "x")]; PElement span_hi; PInt 3;
              PRawHTML "<b>x</b>"; PNone] [] in
  children e = [PElement span_hi; PStr "3"; PStr "<b>x</b>"]
  /\ from_dict (to_dict repr_opaque e) = Some e.
Proof.
  cbv zeta. split; [reflexivity|].
  exact (proj2 (HTMLElement_call_roundtrip repr_opaque
                  (HTMLBuilder_getattr "p")
                  [PDict [("id", PStr "x")]; PElement span_hi; PInt 3;
                   PRawHTML "<b>x</b>"; PNone] [] eq_refl)).
Defined.

Lemma HTMLElement_call_props_order_witness :
  PyDict.keys
    (props (HTMLElement_call repr_opaque (HTMLBuilder_getattr "div")
              [PDict [("class_", PStr "a"); ("id", PStr "x")]]
              [("title", PStr "t"); ("class_", PStr "b")]))
    = ["class_"; "id"; "title"].
Proof.
  assert (Hwf : PyDict.wf [("title", PStr "t"); ("class_", PStr "b")]).
  { apply (bool_decide_unpack _). reflexivity. }
  rewrite (proj1 (HTMLElement_call_props_order repr_opaque
                    (HTMLBuilder_getattr "div")
                    [PDict [("class_", PStr "a"); ("id", PStr "x")]]
                    [("title", PStr "t"); ("class_", PStr "b")] Hwf)).
  reflexivity.
Defined.

(** ** The state-setter helpers *)

Section SetterHelpers.

Variable py_repr : pyobj -> string.

Lemma append_nonempty (s t : string) : t <> "" -> s +:+ t <> "".
Proof. destruct s; [done|]. intros _. discriminate. Qed.

Lemma last_char_append (s t : string) :
  t <> "" -> last_char (s +:+ t) = last_char t.
Proof.
  intros Ht. induction s as [|c s IH]; [done|].
  change (String c s +:+ t) with (String c (s +:+ t)).
  cbn [last_char]. rewrite IH.
  pose proof (append_nonempty s t Ht). by destruct (s +:+ t).
Qed.

Lemma append_last_inj (s1 s2 : string) (c1 c2 : ascii) :
  s1 +:+ String c1 "" = s2 +:+ String c2 "" -> s1 = s2 /\ c1 = c2.
Proof.
  revert s2. induction s1 as [|a s1 IH]; intros [|b s2] Heq.
  - by inversion Heq.
  - inversion Heq as [[Ha Hs]]. by destruct s2.
  - inversion Heq as [[Ha Hs]]. by destruct s1.
  - change (String a (s1 +:+ String c1 "") = String b (s2 +:+ String c2 ""))
      in Heq.
    inversion Heq as [[Ha Hs]]. destruct (IH _ Hs) as [-> ->]. done.
Qed.

(** X19: on an object without a [state_key] attribute [bind] and
    [set_state] raise [ValueError] with the same message, while
    [create_event_handler], which reads the attribute unguarded, raises
    [AttributeError], whatever its second argument.  On an object with the
    attribute [bind] returns the key, [set_state] the [setState] script of
    the key and the expression, and [create_event_handler] always returns
    a [setState] script of the key, also for a function that raises when
    it is probed. *)
Theorem setter_helpers_results (setter : SetterObject) (expression : string)
    (func_or_value : FuncOrValue) :
  match state_key_attr setter with
  | None =>
      bind_setter setter = Raises (ValueError not_a_setter)
      /\ set_state setter expression = Raises (ValueError not_a_setter)
      /\ create_event_handler py_repr setter func_or_value
         = Raises (AttributeError
                     ("'" +:+ type_name setter
                        +:+ "' object has no attribute 'state_key'"))
  | Some state_key =>
      bind_setter setter = Returns state_key
      /\ set_state setter expression
         = Returns ("setState('" +:+ state_key +:+ "', " +:+ expression +:+ ")")
      /\ exists body,
          create_event_handler py_repr setter func_or_value
            = Returns ("setState('" +:+ state_key +:+ "', " +:+ body +:+ ")")
  end.
Proof.
  unfold bind_setter, set_state, create_event_handler.
  destruct (state_key_attr setter) as [state_key|]; [|done].
  split; [done|]. split; [done|].
  destruct func_or_value as [f|v]; [|eauto].
  repeat case_match; eauto.
Qed.

(** X20: for a value that is not callable, [create_event_handler] is
    [set_state] with the [str] of the value as the expression, on every
    object that has a [state_key]. *)
Theorem create_event_handler_direct_value (setter : SetterObject)
    (state_key : string) (v : value) :
  state_key_attr setter = Some state_key ->
  create_event_handler py_repr setter (NotCallable v)
    = set_state setter (py_str py_repr (to_pyobj v)).
Proof.
  intros Hk. unfold create_event_handler, set_state. by rewrite Hk.
Qed.

(** X21: the script that doubles the state is never produced for a
    callable: the test for it repeats the test of the increment script,
    which comes first.  So a function that maps [1] to [2], doubling as
    well as incrementing, gets the increment script when neither its name
    nor its constants match. *)
Theorem create_event_handler_never_doubles (setter : SetterObject)
    (state_key : string) (f : FunctionObject) :
  state_key_attr setter = Some state_key ->
  let current := "(state." +:+ state_key +:+ " || 0)" in
  let script body := "setState('" +:+ state_key +:+ "', " +:+ body +:+ ")" in
  create_event_handler py_repr setter (IsCallable f)
    <> Returns (script (current +:+ " * 2"))
  /\ (forall r,
        looks_like f "increment" "return last_count + 1" = false ->
        looks_like f "decrement" "return last_count - 1" = false ->
        looks_like f "reset_to_zero" "return 0" = false ->
        call_with_1 f = Ok r ->
        py_eq_int r 2 = true ->
        create_event_handler py_repr setter (IsCallable f)
          = Returns (script (current +:+ " + 1"))).
Proof.
  intros Hk current script.
  unfold create_event_handler. rewrite Hk. cbv zeta.
  fold current. fold script. split.
  - assert (Hbody : forall body,
              Returns (script body) = Returns (script (current +:+ " * 2")) ->
              last_char body = Some "2"%char).
    { intros body Heq. injection Heq as Heq. unfold script in Heq.
      do 3 apply (inj (String.app _)) in Heq.
      apply append_last_inj in Heq as [-> _].
      by rewrite last_char_append. }
    assert (Hcurrent : last_char current = Some ")"%char).
    { unfold current. by rewrite !last_char_append
        by (try apply append_nonempty; done). }
    repeat case_match; intros Heq; apply Hbody in Heq;
      rewrite ?last_char_append in Heq
        by (unfold current; repeat apply append_nonempty; done);
      rewrite ?Hcurrent in Heq; cbn in Heq; discriminate Heq.
  - intros r H1 H2 H3 Hr Heq. by rewrite H1, H2, H3, Hr, Heq.
Qed.

End SetterHelpers.

Lemma create_event_handler_direct_value_witness :
  create_event_handler repr_opaque count_setter (NotCallable (VInt 5))
    = Returns "setState('count', 5)".
Proof.
  rewrite (create_event_handler_direct_value repr_opaque count_setter "count"
             (VInt 5) eq_refl).
  reflexivity.
Defined.

Lemma create_event_handler_never_doubles_witness :
  create_event_handler repr_opaque count_setter (IsCallable doubling)
    = Returns "setState('count', (state.count || 0) + 1)".
Proof.
  rewrite (proj2 (create_event_handler_never_doubles repr_opaque count_setter
                    "count" doubling eq_refl)
             (VInt 2) eq_refl eq_refl eq_refl eq_refl eq_refl).
  reflexivity.
Defined.

(** ** Attributes that are not events *)

Section PlainAttributes.

Variable py_repr : pyobj -> string.

Lemma replace_no_underscore (s : string) :
  contains_substring "_" (replace "_" "-" s) = false.
Proof.
  induction s as [|c s IH]; [done|].
  cbn [replace contains_substring]. rewrite IH, orb_false_r.
  destruct (Ascii.eqb_spec c "_") as [->|Hne]; [reflexivity|].
  cbn [String.prefix]. by destruct (ascii_dec "_" c) as [<-|].
Qed.

(** X22: a prop whose key does not start with [on_] gives one attribute
    [name="text"] and leaves the globals as they were, also when its value
    is a function: only event props register.  The name is [class] for
    [class_] and otherwise the key with hyphens for underscores, so it
    holds no underscore; the text is the [style] rendering for a mapping
    under [style] and the [str] of the value otherwise. *)
Theorem render_attr_plain (key : string) (value : pyobj) (g : Globals) :
  startswith "on_" key = false ->
  let name := if decide (key = "class_") then "class"
              else replace "_" "-" key in
  let text := match value with
              | PDict d => if decide (key = "style") then style_str py_repr d
                           else py_str py_repr value
              | _ => py_str py_repr value
              end in
  render_attr py_repr key value g = (name +:+ "=" +:+ dq +:+ text +:+ dq, g)
  /\ contains_substring "_" name = false.
Proof.
  intros Hon name text. subst name text. unfold render_attr. rewrite Hon.
  split.
  - repeat case_decide; subst; try done; by destruct value.
  - case_decide; [done|apply replace_no_underscore].
Qed.

End PlainAttributes.

Lemma render_attr_plain_witness :
  render_attr repr_opaque "data_bind" (PStr "x") initial_globals
    = ("data-bind=" +:+ dq +:+ "x" +:+ dq, initial_globals)
  /\ render_attr repr_opaque "aria_label" (PCallable noop_handler) initial_globals
    = ("aria-label=" +:+ dq +:+ "<object>" +:+ dq, initial_globals).
Proof.
  split.
  - exact (proj1 (render_attr_plain repr_opaque "data_bind" (PStr "x")
                    initial_globals eq_refl)).
  - exact (proj1 (render_attr_plain repr_opaque "aria_label"
                    (PCallable noop_handler) initial_globals eq_refl)).
Defined.

(** ** The two transports, equal serializations, misplaced mappings *)

Section Transports.

Variable py_repr : pyobj -> string.

(** X23: the live channel and the [/rpc] route run the same handler: for
    every method name and parameters they leave the same world, and when
    the route returns [{"result": r}] the channel sends [{"id": ..,
    "result": r}] with the id of the message unchanged; when the route
    reports an unknown method the channel sends nothing; an exception the
    handler lets out leaves both. *)
Theorem websocket_message_agrees_with_rpc_handler (message_id : value)
    (method : option string) (params : option RpcData) (w : World) :
  snd (websocket_message py_repr message_id method params w)
    = snd (rpc_handler py_repr method params w)
  /\ fst (websocket_message py_repr message_id method params w)
     = match fst (rpc_handler py_repr method params w) with
       | Return (RpcResult r) => Return (Some (message_id, r))
       | Return (RpcError _) => Return None
       | Raised msg => Raised msg
       end.
Proof.
  unfold websocket_message, rpc_handler.
  destruct method as [name|]; [|done].
  destruct (PyDict.get name (rpc_handlers py_repr)) as [handler|]; [|done].
  unfold bind, ret.
  by destruct (handler (default empty_params params) w) as [[r|msg] w'].
Qed.

(** X24: the serialized tree determines the HTML: two elements with the
    same [to_dict] emit the same text and leave the same globals, from any
    globals. *)
Theorem to_dict_determines_html (e1 e2 : Element) (g : Globals) :
  to_dict py_repr e1 = to_dict py_repr e2 ->
  to_html py_repr e1 g = to_html py_repr e2 g.
Proof.
  intros Heq.
  assert (Hs : stringify py_repr e1 = stringify py_repr e2).
  { pose proof (from_dict_to_dict py_repr e1) as H1.
    rewrite Heq, from_dict_to_dict in H1. by injection H1. }
  by rewrite <- (stringify_to_html py_repr e1),
             <- (stringify_to_html py_repr e2), Hs.
Qed.

Lemma update_empty {V} (other : list (string * V)) :
  PyDict.wf other -> PyDict.update [] other = other.
Proof.
  assert (Hgen : forall d, PyDict.wf (d ++ other) ->
            PyDict.update d other = d ++ other).
  { unfold PyDict.wf, PyDict.update, PyDict.keys.
    induction other as [|[k v] other IH]; intros d Hwf.
    - cbn. by rewrite app_nil_r.
    - cbn [fold_left fst snd].
      assert (Hfresh : k ∉ PyDict.keys d).
      { rewrite map_app in Hwf. apply NoDup_app in Hwf as (_ & Hdis & _).
        intros Hin. apply (Hdis k Hin). cbn. left. }
      rewrite set_absent by by apply get_not_in_keys.
      rewrite IH; rewrite <- app_assoc; done. }
  intros Hwf. by apply (Hgen []).
Qed.

(** X25: only a mapping in first position is the attributes mapping.  When
    the first positional argument is not a mapping, the props are exactly
    the keyword arguments and every positional argument is a child
    argument, so a mapping given later ends up among the children as the
    text of its [str]. *)
Theorem HTMLElement_call_misplaced_mapping (self : HTMLElement)
    (first : pyobj) (rest : list pyobj) (kwargs : list (string * pyobj)) :
  PyDict.wf kwargs ->
  (forall d, first <> PDict d) ->
  let e := HTMLElement_call py_repr self (first :: rest) kwargs in
  props e = kwargs
  /\ children e = concat (map (child_items py_repr) (first :: rest))
  /\ forall d, PDict d ∈ rest -> PStr (py_repr (PDict d)) ∈ children e.
Proof.
  intros Hwf Hfirst e. subst e. unfold HTMLElement_call.
  rewrite call_loop_first.
  assert (positional_props (first :: rest) = []
          /\ child_args (first :: rest) = first :: rest) as [-> ->].
  { destruct first; try done. by destruct (Hfirst d). }
  cbn [props children]. split; [by apply update_empty|]. split; [done|].
  intros d Hd. cbn [map concat]. apply elem_of_app. right.
  apply list_elem_of_In, in_concat. exists [PStr (py_repr (PDict d))].
  split; [|by left]. apply in_map_iff. exists (PDict d).
  split; [done|]. by apply list_elem_of_In.
Qed.

End Transports.

Lemma to_dict_determines_html_witness :
  to_html repr_opaque
      (mkElement "p" [] [PRawHTML "<b>x</b>"; PInt 3] None None) initial_globals
    = to_html repr_opaque
      (mkElement "p" [] [PStr "<b>x</b>"; PStr "3"] None None) initial_globals.
Proof.
  exact (to_dict_determines_html repr_opaque
           (mkElement "p" [] [PRawHTML "<b>x</b>"; PInt 3] None None)
           (mkElement "p" [] [PStr "<b>x</b>"; PStr "3"] None None)
           initial_globals eq_refl).
Defined.

Lemma HTMLElement_call_misplaced_mapping_witness :
  let e := HTMLElement_call repr_opaque (HTMLBuilder_getattr "div")
             [PStr "x"; PDict [("id", PStr "a")]] [] in
  props e = [] /\ children e = [PStr "x"; PStr "<object>"].
Proof.
  cbv zeta.
  assert (Hwf : PyDict.wf (V:=pyobj) []).
  { apply (bool_decide_unpack _). reflexivity. }
  destruct (HTMLElement_call_misplaced_mapping repr_opaque
              (HTMLBuilder_getattr "div") (PStr "x")
              [PDict [("id", PStr "a")]] [] Hwf) as (Hp & Hc & _).
  - intros d. discriminate.
  - split; [exact Hp|]. rewrite Hc. reflexivity.
Defined.

(** ** The text widget *)

Section TextWidget.

Variable py_repr : pyobj -> string.

Lemma set_string_valued (k s : string) (ps : list (string * pyobj)) :
  string_valued ps -> string_valued (PyDict.set k (PStr s) ps).
Proof.
  unfold string_valued. induction ps as [|[k' v'] ps IH]; cbn.
  - intros _. repeat constructor. by exists s.
  - intros Hall. inversion_clear Hall as [|? ? Hv Hps].
    destruct (decide (k' = k)); constructor; eauto.
Qed.

Lemma get_props_string_valued (self : Widget) : string_valued (get_props self).
Proof.
  unfold get_props.
  repeat first [ case_match | apply set_string_valued | by constructor ].
Qed.

Lemma Text_props_string_valued (self : Widget) :
  string_valued (Text_props py_repr self).
Proof.
  unfold Text_props.
  repeat case_match; apply set_string_valued, get_props_string_valued.
Qed.

Lemma string_valued_no_handlers (ps : list (string * pyobj)) :
  string_valued ps -> prop_handlers ps = [].
Proof.
  unfold string_valued, prop_handlers.
  induction 1 as [|[k v] ps [s Hs] _ IH]; [done|].
  cbn in *. by rewrite Hs, IH.
Qed.

(** X26: a text widget that shows no label and whose value is a string is
    one [div]: its HTML is the opening tag with the attributes of the
    widget, the value as it is, unescaped, and the closing tag; the
    emission registers nothing. *)
Theorem Text_render_html (self : Widget) (s : string) (g : Globals) :
  widget_value self = PStr s ->
  show_label self && truthy (label self) = false ->
  to_html py_repr (Text_render py_repr self) g
    = ("<div"
         +:+ attrs_str (fst (render_attrs py_repr (Text_props py_repr self) g))
         +:+ ">" +:+ s +:+ "</div>", g).
Proof.
  intros Hv Hl. unfold Text_render. rewrite Hl, Hv.
  unfold HTMLElement_call. rewrite call_loop_first.
  cbn [positional_props child_args map concat child_items app
       PyDict.update fold_left HTMLBuilder_getattr he_tag].
  rewrite to_html_unfold. cbn [tag props children]. cbv zeta.
  assert (snd (render_attrs py_repr (Text_props py_repr self) g) = g) as Hg.
  { rewrite render_attrs_registers.
    by rewrite string_valued_no_handlers
      by apply Text_props_string_valued. }
  rewrite Hg. reflexivity.
Qed.

Lemma render_attrs_class (c : string) (g : Globals) :
  render_attrs py_repr [("class", PStr c)] g
    = (["class=" +:+ dq +:+ c +:+ dq], g).
Proof. reflexivity. Qed.

Lemma to_html_label (l : string) (g : Globals) :
  to_html py_repr
      (HTMLElement_call py_repr (HTMLBuilder_getattr "label")
         [PDict [("class",
                  PStr "block text-sm font-medium text-gray-700 mb-2")];
          PStr l] []) g
    = ("<label class=" +:+ dq
         +:+ "block text-sm font-medium text-gray-700 mb-2" +:+ dq
         +:+ ">" +:+ l +:+ "</label>", g).
Proof. reflexivity. Qed.

(** X27: a text widget that shows its label is the widget without label
    wrapped: its HTML is a [div] of class [form-group mb-4] that holds the
    [label] element with the label text and then the HTML of the same
    widget with the label switched off, and it leaves the globals that this
    inner emission leaves. *)
Theorem Text_render_label_wraps (self : Widget) (g : Globals) :
  show_label self && truthy (label self) = true ->
  let inner := to_html py_repr (Text_render py_repr (without_label self)) g in
  to_html py_repr (Text_render py_repr self) g
    = ("<div class=" +:+ dq +:+ "form-group mb-4" +:+ dq +:+ ">"
         +:+ join "" ["<label class=" +:+ dq
                        +:+ "block text-sm font-medium text-gray-700 mb-2"
                        +:+ dq +:+ ">" +:+ default "" (label self)
                        +:+ "</label>";
                      fst inner]
         +:+ "</div>", snd inner).
Proof.
  intros Hl inner. subst inner. unfold Text_render. rewrite Hl.
  cbn [without_label show_label widget_value andb].
  change (Text_props py_repr (without_label self))
    with (Text_props py_repr self).
  set (inner := HTMLElement_call py_repr (HTMLBuilder_getattr "div")
                  [PDict (Text_props py_repr self); widget_value self] []).
  unfold HTMLElement_call at 1. rewrite call_loop_first.
  rewrite to_html_unfold.
  cbn [positional_props child_args map concat child_items app tag props
       children PyDict.update fold_left HTMLBuilder_getattr he_tag].
  cbv zeta. rewrite render_attrs_class. cbn [fst snd].
  change (is_self_closing "div") with false. cbv iota.
  cbn [children_html child_to_html]. rewrite to_html_label.
  destruct (to_html py_repr inner g) as [h g'].
  reflexivity.
Qed.

End TextWidget.

Lemma Text_render_html_witness :
  to_html repr_opaque (Text_render repr_opaque (without_label greeting))
      initial_globals
    = ("<div id=" +:+ dq +:+ "t1" +:+ dq +:+ " class=" +:+ dq
         +:+ "p-4 bg-gray-100 rounded-md border border-gray-200 min-h-[60px] text-gray-800 wide"
         +:+ dq +:+ "><b>hi</b></div>", initial_globals).
Proof.
  rewrite (Text_render_html repr_opaque (without_label greeting) "<b>hi</b>"
             initial_globals eq_refl eq_refl).
  reflexivity.
Defined.

Lemma Text_render_label_wraps_witness :
  fst (to_html repr_opaque (Text_render repr_opaque greeting) initial_globals)
    = "<div class=" +:+ dq +:+ "form-group mb-4" +:+ dq +:+ "><label class="
        +:+ dq +:+ "block text-sm font-medium text-gray-700 mb-2" +:+ dq
        +:+ ">Greeting</label><div id=" +:+ dq +:+ "t1" +:+ dq +:+ " class="
        +:+ dq
        +:+ "p-4 bg-gray-100 rounded-md border border-gray-200 min-h-[60px] text-gray-800 wide"
        +:+ dq +:+ "><b>hi</b></div></div>".
Proof.
  rewrite (Text_render_label_wraps repr_opaque greeting initial_globals eq_refl).
  reflexivity.
Defined.

(** ** From the emitted id to the call *)

Section EmittedHandlers.

Variable py_repr : pyobj -> string.

Lemma emitted_handler_registered (e : Element) (g : Globals) (i : nat)
    (key : string) (f : Callable) :
  props e !! i = Some (key, PCallable f) ->
  startswith "on_" key = true ->
  exists n,
    fst (render_attrs py_repr (props e) g) !! i
      = Some ("data-handler=" +:+ dq +:+ handler_name n +:+ dq)
    /\ _event_handlers (snd (to_html py_repr e g)) !! handler_name n = Some f.
Proof.
  intros Hi Hon.
  destruct (render_attrs_lookup py_repr (props e) g i key (PCallable f) Hi)
    as (gi & _ & Hattr & Hext).
  pose proof (extends_trans _ _ _ Hext (to_html_extends_attrs py_repr e g))
    as [_ Hkeep].
  unfold render_attr in *. rewrite Hon in *.
  cbn [fst snd register_event_handler] in *.
  exists (_handler_counter gi). split; [exact Hattr|].
  rewrite Hkeep by (cbn; lia). cbn. apply lookup_insert_eq.
Qed.

(** X28: the id that [to_html] writes into a [data-handler] attribute
    resolves to the function bound to that prop: in a world whose globals
    are those the emission left, [executeHandler] with that id and a
    mounted component calls that function, once, with the synthetic event,
    and answers by what the function does: the failure with its message
    when it raises, [{success: True}] when it returns a value that is not
    callable. *)
Theorem emitted_handler_is_executed (e : Element) (g : Globals) (i : nat)
    (key : string) (f : Callable) (w : World) (cid : string) (c : Component) :
  props e !! i = Some (key, PCallable f) ->
  startswith "on_" key = true ->
  globals w = snd (to_html py_repr e g) ->
  components w !! cid = Some c ->
  exists n,
    fst (render_attrs py_repr (props e) g) !! i
      = Some ("data-handler=" +:+ dq +:+ handler_name n +:+ dq)
    /\ let out := _handle_execute_handler py_repr
                    (mkRpcData (VStr cid) VNone VNone VNone
                       (VStr (handler_name n))) w in
       let call := fn_call f MockEvent_new (heap_of (components w)) in
       (exists more,
          trace (snd out)
            = trace w ++ CallHandler (handler_name n) MockEvent_new :: more
          /\ Forall (fun ev => is_handler_call ev = false) more)
       /\ (forall msg, snd call = HRaise msg ->
             fst out = Return [("success", RBool false); ("error", RStr msg)])
       /\ (forall v, snd call = HReturn v ->
             fst out = Return [("success", RBool true)]).
Proof.
  intros Hi Hon Hg Hc.
  destruct (emitted_handler_registered e g i key f Hi Hon) as (n & Hattr & Hreg).
  exists n. split; [exact Hattr|]. cbv zeta. rewrite <- Hg in Hreg.
  destruct (fn_call f MockEvent_new (heap_of (components w))) as [heap r] eqn:Hcall.
  rewrite (execute_handler_found py_repr w
             (mkRpcData (VStr cid) VNone VNone VNone (VStr (handler_name n)))
             (handler_name n) cid f c heap r eq_refl eq_refl Hreg Hc Hcall).
  cbn [snd]. split; [|split].
  - destruct r as [msg|v|h].
    + exists []. by split.
    + exists []. by split.
    + destruct (states_after heap cid c) as [|[k v] rest];
        [exists []; by split|].
      cbv zeta. destruct (h v) as [new_value|msg].
      * match goal with |- context [update_component py_repr cid ?w0] =>
          destruct (update_component_trace py_repr w0 cid) as (more & Ht & Hmore);
          destruct (update_component py_repr cid w0) as [[[]|msg] w'] eqn:E
        end; cbn in *; rewrite Ht, <- !app_assoc; cbn;
          (eexists; split; [reflexivity|]);
          (constructor; [done|]); (constructor; [done|]);
          by apply update_effect_not_handler_call.
      * cbn. rewrite <- app_assoc. eexists. split; [reflexivity|].
        by repeat constructor.
  - by intros msg ->.
  - by intros v ->.
Qed.

End EmittedHandlers.

Lemma emitted_handler_is_executed_witness :
  exists n,
    fst (render_attrs repr_opaque (props button) example_globals) !! 0
      = Some ("data-handler=" +:+ dq +:+ handler_name n +:+ dq)
    /\ exists more,
        trace (snd (_handle_execute_handler repr_opaque
                      (mkRpcData (VStr "c1") VNone VNone VNone
                         (VStr (handler_name n))) rendered_world))
          = CallHandler (handler_name n) MockEvent_new :: more.
Proof.
  assert (Hc : components rendered_world !! "c1" = Some counter)
    by reflexivity.
  destruct (emitted_handler_is_executed repr_opaque button example_globals 0
              "on_click" increment_handler rendered_world "c1" counter
              eq_refl eq_refl eq_refl Hc)
    as (n & Hattr & (more & Ht & _) & _).
  exists n. split; [exact Hattr|]. exists more. exact Ht.
Defined.
